(** * Playback-state persistence of the web player wrapper (main.cpp)

    A shallow embedding of the state persistence logic of [main.cpp]:
    the periodic capture handler (the [stateTimer] timeout lambda), the
    restore handler (the [loadFinished] lambda) and the two injected
    scripts [js_read_state] and [js_restore_state_template].

    The Qt JSON codec, the UTF-8 conversions and the JavaScript engine
    are libraries the program calls; they are the fields of the class
    [Platform], and every theorem holds for any platform.  A small
    reference platform ([Ref]) is defined to evaluate the handlers on
    concrete inputs. *)

From Stdlib Require Import ZArith List String Ascii Strings.Byte Bool Lia PeanoNat.
From Stdlib Require Import Floats.SpecFloat DecimalString.
Import ListNotations.

Set Implicit Arguments.
Set Warnings "-register-all".

(** ** Numbers

    A JavaScript Number and a C++ [double] are IEEE 754 binary64
    values: [spec_float] with precision 53 and maximal exponent 1024. *)

Definition number : Type := spec_float.

Definition prec : Z := 53.
Definition emax : Z := 1024.

(** The binary64 value of an integer (exact below 2^53). *)
Definition num_of_Z (z : Z) : number := binary_normalize prec emax z 0 false.

Definition num_zero : number := S754_zero false.

Definition is_nan (d : number) : bool :=
  match d with S754_nan => true | _ => false end.

(** Truthiness of a Number: [+0], [-0] and [NaN] are falsy. *)
Definition num_truthy (d : number) : bool :=
  match d with
  | S754_zero _ | S754_nan => false
  | S754_infinity _ | S754_finite _ _ _ => true
  end.

(** [a || b] on two Numbers. *)
Definition num_or (a b : number) : number := if num_truthy a then a else b.

(** [Math.min(a, b)]: NaN if either argument is NaN; [-0] is below [+0]. *)
Definition Math_min (a b : number) : number :=
  match SFcompare a b with
  | None => S754_nan
  | Some Lt => a
  | Some Gt => b
  | Some Eq => match a with S754_zero true => a | _ => b end
  end.

(** ** Strings and byte arrays *)

Definition QString : Type := string.
Definition QByteArray : Type := list byte.

Definition isEmpty (s : QString) : bool :=
  match s with EmptyString => true | _ => false end.

(** ** JavaScript values and completions

    The values the scripts handle: the primitives, and plain objects
    with data properties.  Nothing here is callable and there are no
    symbols. *)

Inductive JsValue : Type :=
| JsUndefined
| JsNull
| JsBool (b : bool)
| JsNumber (n : number)
| JsString (s : string)
| JsObject (props : list (string * JsValue)).

(** An evaluation either completes normally or throws. *)
Inductive Completion (A : Type) : Type :=
| Normal (a : A)
| Throw.
Arguments Throw {A}.

Definition ToBoolean (v : JsValue) : bool :=
  match v with
  | JsUndefined | JsNull => false
  | JsBool b => b
  | JsNumber n => num_truthy n
  | JsString s => negb (isEmpty s)
  | JsObject _ => true
  end.

(** [a || b]. *)
Definition js_or (a b : JsValue) : JsValue := if ToBoolean a then a else b.

(** [a || b] on two strings (the empty string is falsy). *)
Definition str_or (a b : string) : string := if isEmpty a then b else a.

(** [typeof v === 'number']. *)
Definition typeof_number (v : JsValue) : bool :=
  match v with JsNumber _ => true | _ => false end.

Fixpoint lookup_prop (k : string) (props : list (string * JsValue)) : JsValue :=
  match props with
  | [] => JsUndefined
  | (k', v) :: rest => if String.eqb k k' then v else lookup_prop k rest
  end.

(** Property read [v.k]: a TypeError on [undefined] and [null], the own
    property of a plain object, [undefined] on the other primitives
    (none of the names read by the scripts is a built-in property). *)
Definition Get (v : JsValue) (k : string) : Completion JsValue :=
  match v with
  | JsUndefined | JsNull => Throw
  | JsObject props => Normal (lookup_prop k props)
  | JsBool _ | JsNumber _ | JsString _ => Normal JsUndefined
  end.

(** ** The page seen by the scripts *)

(** The observable state of the [<audio>] element. *)
Record Audio : Type := {
  readyState : nat;
  duration : number;
  currentTime : number;
  paused : bool
}.

(** [window.player].  An accessor is [None] when the property is
    absent (falsy), and otherwise gives the completion of calling it;
    [play] is only ever called, so a missing method is a [Throw]. *)
Record Player : Type := {
  getCurrentTime : option (Completion JsValue);
  isPlaying : option (Completion JsValue);
  seek : option (JsValue -> Completion unit);
  play : Completion unit
}.

Record Page : Type := {
  location_hash : string;
  location_pathname : string;
  document_title : string;
  audio : option Audio;          (* document.querySelector('audio') *)
  player : option Player         (* window.player *)
}.

(** What a script does to the page.  [AudioPlay] is the call
    [audio.play().catch(function(){})]: a rejected promise is dropped. *)
Inductive Effect : Type :=
| SetCurrentTime (v : number)    (* audio.currentTime = v *)
| AudioPlay                      (* audio.play() *)
| PlayerSeek (v : JsValue)       (* window.player.seek(v) *)
| PlayerPlay.                    (* window.player.play() *)

(** Script fragments: the effects done so far and the completion. *)
Definition Js (A : Type) : Type := (list Effect * Completion A)%type.

Definition ret {A} (a : A) : Js A := ([], Normal a).
Definition emit (e : Effect) : Js unit := ([e], Normal tt).
Definition lift {A} (c : Completion A) : Js A := ([], c).

Definition bind {A B} (m : Js A) (f : A -> Js B) : Js B :=
  match m with
  | (l, Normal a) => let (l', r) := f a in (l ++ l', r)
  | (l, Throw) => (l, Throw)
  end.

(** [try { m } catch(e) { h }]. *)
Definition try_catch {A} (m : Js A) (h : Js A) : Js A :=
  match m with
  | (l, Throw) => let (l', r) := h in (l ++ l', r)
  | ok => ok
  end.

Declare Scope js_scope.
Delimit Scope js_scope with js.
Notation "x <- m ;; k" := (bind m (fun x => k))
  (at level 61, m at next level, right associativity) : js_scope.
Notation "m ;;; k" := (bind m (fun _ => k))
  (at level 61, right associativity) : js_scope.

(** ** Qt JSON values *)

Inductive QJsonValue : Type :=
| JNull
| JBool (b : bool)
| JDouble (d : number)
| JString (s : QString)
| JArray (a : list QJsonValue)
| JObject (o : list (QString * QJsonValue))
| JUndefined.

(** A [QJsonObject]: keys are unique and kept in ascending order. *)
Definition QJsonObject : Type := list (QString * QJsonValue).

(** [obj.value(key)]: [Undefined] when the key is absent. *)
Fixpoint value (key : QString) (obj : QJsonObject) : QJsonValue :=
  match obj with
  | [] => JUndefined
  | (k, v) :: rest => if String.eqb key k then v else value key rest
  end.

(** [obj[key] = v]: replaces the value of an existing key, inserts a
    new key at its place in the order. *)
Fixpoint insert (key : QString) (v : QJsonValue) (obj : QJsonObject) : QJsonObject :=
  match obj with
  | [] => [(key, v)]
  | (k, w) :: rest =>
      match String.compare key k with
      | Eq => (key, v) :: rest
      | Lt => (key, v) :: (k, w) :: rest
      | Gt => (k, w) :: insert key v rest
      end
  end.

Definition keys (obj : QJsonObject) : list QString := map fst obj.

(** [v.toString(def)], [v.toDouble(def)], [v.toBool(def)]. *)
Definition toString (v : QJsonValue) (def : QString) : QString :=
  match v with JString s => s | _ => def end.
Definition toDouble (v : QJsonValue) (def : number) : number :=
  match v with JDouble d => d | _ => def end.
Definition toBool (v : QJsonValue) (def : bool) : bool :=
  match v with JBool b => b | _ => def end.

(** A [QJsonDocument] holds an object, an array, or nothing. *)
Inductive QJsonDocument : Type :=
| DocNull
| DocArray (a : list QJsonValue)
| DocObject (o : QJsonObject).

(** [doc.object()]: the empty object unless the document is an object. *)
Definition object (doc : QJsonDocument) : QJsonObject :=
  match doc with DocObject o => o | _ => [] end.

(** [QJsonDocument::fromJson(data, &err)]: the document when
    [err.error == NoError], an error otherwise. *)
Inductive ParseResult : Type :=
| ParseOk (doc : QJsonDocument)
| ParseError.

(** The [QVariant] handed to the callback of [runJavaScript] for
    [js_read_state], whose every path returns a string: the string, or
    an invalid variant when the engine delivers no result. *)
Inductive QVariant : Type :=
| QVInvalid
| QVString (s : QString).

(** ** The platform

    The libraries [main.cpp] calls and the JavaScript engine that runs
    the injected scripts. *)

Class Platform : Type := {
  (** [QString::toUtf8] and [QString::fromUtf8] *)
  toUtf8 : QString -> QByteArray;
  fromUtf8 : QByteArray -> QString;
  (** [QJsonDocument::fromJson] *)
  fromJson : QByteArray -> ParseResult;
  (** [QJsonDocument::toJson(QJsonDocument::Compact)] *)
  toJson : QJsonDocument -> QByteArray;
  (** [JSON.stringify] *)
  JSON_stringify : JsValue -> string;
  (** the Number a string converts to *)
  StringToNumber : string -> number;
  (** the value of source text used as an expression, [None] when it
      is not well-formed *)
  js_eval : QString -> option JsValue
}.

(** The persistent side of the program: the state file at
    [stateFile], whether it can be opened for reading and for writing,
    and the restore scripts handed to the page so far (latest first). *)
Inductive Script : Type :=
| RestoreScript (stateJson : QString).   (* js_restore_state_template with %1 := stateJson *)

Record World : Type := {
  file : option QByteArray;      (* None: the file does not exist *)
  readable : bool;               (* f.open(QIODevice::ReadOnly) succeeds *)
  writable : bool;               (* f.open(QIODevice::WriteOnly) succeeds *)
  dispatched : list Script
}.

(** What running the restore script comes to: its effects on the page
    in order, how many times the interval callback ran, whether the
    interval is still set, and whether an exception escaped. *)
Record Outcome : Type := {
  effects : list Effect;
  polls : nat;
  armed : bool;
  raised : bool
}.

Section Synchronizer.

Context {P : Platform}.

Open Scope string_scope.
Open Scope js_scope.

(** Whether a plain object has a property of its own under [k]. *)
Fixpoint has_prop (k : string) (props : list (string * JsValue)) : bool :=
  match props with
  | [] => false
  | (k', _) :: rest => String.eqb k k' || has_prop k rest
  end.

(** [Number(v)].  A plain object is converted through [valueOf] and
    [toString]: a property of its own under one of these names is not
    callable (no value here is) and is passed over; the inherited
    [valueOf] returns the object and the inherited [toString] gives a
    string that is not a numeral, hence NaN.  With a [toString] of its
    own no method is left and the conversion throws a TypeError. *)
Definition ToNumber (v : JsValue) : Completion number :=
  match v with
  | JsUndefined => Normal S754_nan
  | JsNull => Normal num_zero
  | JsBool b => Normal (if b then num_of_Z 1 else num_zero)
  | JsNumber n => Normal n
  | JsString s => Normal (StringToNumber s)
  | JsObject props =>
      if has_prop "toString" props then Throw else Normal S754_nan
  end.

(** *** js_read_state *)

Definition descriptor (id : string) (time : number) (paused : bool) : JsValue :=
  JsObject [("id", JsString id); ("time", JsNumber time); ("paused", JsBool paused)].

(** [location.hash || location.pathname || document.title || 'unknown'] *)
Definition page_id (p : Page) : string :=
  str_or (str_or (str_or (location_hash p) (location_pathname p))
                 (document_title p)) "unknown".

Definition js_read_state (p : Page) : Js string :=
  try_catch
    (let id := page_id p in
     let time0 := JsNumber num_zero in
     let paused0 := JsBool true in
     tp <- match audio p with
           | Some a =>
               ret (js_or (JsNumber (currentTime a)) (JsNumber num_zero),
                    JsBool (paused a))
           | None =>
               time <- match player p with
                       | Some pl =>
                           match getCurrentTime pl with
                           | Some call => try_catch (lift call) (ret time0)
                           | None => ret time0
                           end
                       | None => ret time0
                       end ;;
               pz <- match player p with
                     | Some pl =>
                         match isPlaying pl with
                         | Some call =>
                             try_catch (r <- lift call ;; ret (JsBool (negb (ToBoolean r))))
                                       (ret paused0)
                         | None => ret paused0
                         end
                     | None => ret paused0
                     end ;;
               ret (time, pz)
           end ;;
     time <- lift (ToNumber (fst tp)) ;;
     ret (JSON_stringify (descriptor id time (ToBoolean (snd tp)))))
    (ret (JSON_stringify (descriptor "unknown" num_zero true))).

(** The result [runJavaScript] hands to its callback. *)
Definition runJavaScript_result (r : Js string) : QVariant :=
  match snd r with
  | Normal s => QVString s
  | Throw => QVInvalid
  end.

(** *** js_restore_state_template *)

(** [setOnce]: [true] once the position has been set. *)
Definition setOnce (state : JsValue) (a : Audio) : Js bool :=
  try_catch
    (if (0 <? readyState a)%nat then
       t <- lift (Get state "time") ;;
       x <- lift (ToNumber t) ;;
       y <- lift (ToNumber (js_or (JsNumber (duration a)) t)) ;;
       emit (SetCurrentTime (Math_min x y)) ;;;
       pz <- lift (Get state "paused") ;;
       (if negb (ToBoolean pz) then emit AudioPlay else ret tt) ;;;
       ret true
     else ret false)
    (ret false).

Definition is_true (c : Completion bool) : bool :=
  match c with Normal b => b | Throw => false end.

Definition is_throw {A} (c : Completion A) : bool :=
  match c with Normal _ => false | Throw => true end.

(** The callback given to [setInterval], run once per 500 ms tick for
    as long as the interval is set; [ticks] is the audio element as it
    is at each tick, [tries] the counter before the tick. *)
Fixpoint interval (state : JsValue) (tries : nat) (ticks : list Audio) : Outcome :=
  match ticks with
  | [] => {| effects := []; polls := 0; armed := true; raised := false |}
  | a :: rest =>
      let tries := S tries in
      let (eff, r) := setOnce state a in
      if is_true r || (20 <? tries)%nat then
        (* clearInterval(t) *)
        {| effects := eff; polls := 1; armed := false; raised := is_throw r |}
      else
        let o := interval state tries rest in
        {| effects := eff ++ effects o; polls := S (polls o);
           armed := armed o; raised := is_throw r || raised o |}
  end.

(** The body of the script up to the point where the interval is set;
    the result is [true] when [setInterval] is called. *)
Definition restore_body (state : JsValue) (p : Page) : Js bool :=
  try_catch
    (cond <- match audio p with
             | Some _ =>
                 if ToBoolean state then
                   t <- lift (Get state "time") ;; ret (typeof_number t)
                 else ret false
             | None => ret false
             end ;;
     match audio p, cond with
     | Some a, true =>
         done <- setOnce state a ;;
         ret (negb done)
     | _, _ =>
         match player p with
         | Some pl =>
             match seek pl with
             | Some seek_call =>
                 try_catch
                   (t <- lift (Get state "time") ;;
                    lift (seek_call t) ;;;
                    emit (PlayerSeek t) ;;;
                    pz <- lift (Get state "paused") ;;
                    if negb (ToBoolean pz) then
                      lift (play pl) ;;; emit PlayerPlay
                    else ret tt)
                   (ret tt) ;;;
                 ret false
             | None => ret false
             end
         | None => ret false
         end
     end)
    (ret false).

Definition js_restore_state (state : JsValue) (p : Page) (ticks : list Audio) : Outcome :=
  let (eff, c) := restore_body state p in
  match c with
  | Normal true =>
      let o := interval state 0 ticks in
      {| effects := eff ++ effects o; polls := polls o;
         armed := armed o; raised := raised o |}
  | Normal false => {| effects := eff; polls := 0; armed := false; raised := false |}
  | Throw => {| effects := eff; polls := 0; armed := false; raised := true |}
  end.

(** Running a dispatched script on the page: the template applied to
    the value of the text spliced in for [%1].  Text that is not an
    expression is a syntax error and nothing runs. *)
Definition run_script (s : Script) (p : Page) (ticks : list Audio) : Outcome :=
  match s with
  | RestoreScript stateJson =>
      match js_eval stateJson with
      | Some state => js_restore_state state p ticks
      | None => {| effects := []; polls := 0; armed := false; raised := true |}
      end
  end.

(** *** The handlers of [main] *)

(** [QFile f(stateFile); if (f.open(WriteOnly)) { f.write(data); f.close(); }] *)
Definition write_file (data : QByteArray) (w : World) : World :=
  if writable w then
    {| file := Some data; readable := readable w;
       writable := writable w; dispatched := dispatched w |}
  else w.

(** [page->runJavaScript(js)] *)
Definition runJavaScript (s : Script) (w : World) : World :=
  {| file := file w; readable := readable w;
     writable := writable w; dispatched := s :: dispatched w |}.

(** The callback of the [stateTimer] timeout handler; [now] is
    [QDateTime::currentDateTimeUtc().toString(Qt::ISODate)]. *)
Definition read_state_callback (now : QString) (result : QVariant) (w : World) : World :=
  match result with
  | QVInvalid => w
  | QVString jsonStr =>
      if isEmpty jsonStr then w
      else
        match fromJson (toUtf8 jsonStr) with
        | ParseError => write_file (toUtf8 jsonStr) w
        | ParseOk doc =>
            let obj := object doc in
            let obj := insert "saved_at" (JString now) obj in
            write_file (toJson (DocObject obj)) w
        end
  end.

(** The [stateTimer] timeout handler (capture). *)
Definition stateTimer_timeout (now : QString) (p : Page) (w : World) : World :=
  read_state_callback now (runJavaScript_result (js_read_state p)) w.

(** The descriptor the [loadFinished] handler rebuilds. *)
Definition rebuilt_state (obj : QJsonObject) : QJsonObject :=
  let state : QJsonObject := [] in
  let state := insert "id" (JString (toString (value "id" obj)
                                       (toString (value "id" obj) EmptyString))) state in
  let state := insert "time" (JDouble (toDouble (value "time" obj) num_zero)) state in
  let state := insert "paused" (JBool (toBool (value "paused" obj) true)) state in
  state.

(** The [loadFinished] handler (restore). *)
Definition loadFinished (ok : bool) (w : World) : World :=
  if negb ok then w
  else
    match file w with
    | None => w
    | Some data =>
        if negb (readable w) then w
        else
          match fromJson data with
          | ParseError => w
          | ParseOk doc =>
              let obj := object doc in
              let state := rebuilt_state obj in
              let stateJson := fromUtf8 (toJson (DocObject state)) in
              runJavaScript (RestoreScript stateJson) w
          end
    end.

End Synchronizer.

(** ** A reference platform

    A compact JSON writer and reader over [QJsonValue], with exact
    decimal numerals, used to run the handlers on concrete inputs. *)


Module Ref.

Open Scope string_scope.

Definition dquote : ascii := "034"%char.
Definition backslash : ascii := "\"%char.

Definition dec_of_N (n : N) : string := NilEmpty.string_of_uint (N.to_uint n).

Definition is_digit (c : ascii) : bool :=
  let n := nat_of_ascii c in (48 <=? n)%nat && (n <=? 57)%nat.

Definition digit_val (c : ascii) : N := N.of_nat (nat_of_ascii c - 48).

Fixpoint take_digits (s : string) : string * string :=
  match s with
  | String c r =>
      if is_digit c then let (d, r') := take_digits r in (String c d, r')
      else (EmptyString, s)
  | EmptyString => (EmptyString, EmptyString)
  end.

Fixpoint N_of_digits (acc : N) (s : string) : N :=
  match s with
  | String c r => N_of_digits (10 * acc + digit_val c) r
  | EmptyString => acc
  end.

(** *** Writing *)

Fixpoint zeros (n : nat) : string :=
  match n with O => EmptyString | S n => String "0" (zeros n) end.

Fixpoint rev_string (acc s : string) : string :=
  match s with
  | String c r => rev_string (String c acc) r
  | EmptyString => acc
  end.

Fixpoint drop_leading_zeros (s : string) : string :=
  match s with
  | String c r => if Ascii.eqb c "0" then drop_leading_zeros r else s
  | EmptyString => EmptyString
  end.

Definition strip_trailing_zeros (s : string) : string :=
  rev_string EmptyString (drop_leading_zeros (rev_string EmptyString s)).

(** The exact decimal numeral of [m * 2^e]. *)
Definition write_finite (m : positive) (e : Z) : string :=
  match e with
  | Zneg k =>
      let kn := Pos.to_nat k in
      let ds := dec_of_N (Npos (m * 5 ^ k)) in
      let ds := zeros (S kn - String.length ds) ++ ds in
      let ip := substring 0 (String.length ds - kn) ds in
      let fp := strip_trailing_zeros (substring (String.length ds - kn) kn ds) in
      if isEmpty fp then ip else ip ++ "." ++ fp
  | _ => dec_of_N (Z.to_N (Zpos m * 2 ^ e))
  end.

(** Non-finite numbers are written as [null]. *)
Definition write_number (d : number) : string :=
  match d with
  | S754_zero s => if s then "-0" else "0"
  | S754_finite s m e => (if s then "-" else EmptyString) ++ write_finite m e
  | S754_infinity _ | S754_nan => "null"
  end.

Fixpoint escape (s : string) : string :=
  match s with
  | String c r =>
      if Ascii.eqb c dquote || Ascii.eqb c backslash
      then String backslash (String c (escape r))
      else String c (escape r)
  | EmptyString => EmptyString
  end.

Definition write_string (s : string) : string :=
  String dquote (escape s ++ String dquote EmptyString).

Fixpoint write_value (v : QJsonValue) : string :=
  match v with
  | JNull | JUndefined => "null"
  | JBool b => if b then "true" else "false"
  | JDouble d => write_number d
  | JString s => write_string s
  | JArray a =>
      "[" ++ (fix elems (first : bool) (l : list QJsonValue) : string :=
                match l with
                | [] => EmptyString
                | x :: r => (if first then EmptyString else ",") ++ write_value x ++ elems false r
                end) true a ++ "]"
  | JObject o =>
      "{" ++ (fix members (first : bool) (l : list (QString * QJsonValue)) : string :=
                match l with
                | [] => EmptyString
                | (k, x) :: r =>
                    (if first then EmptyString else ",") ++ write_string k ++ ":" ++ write_value x
                    ++ members false r
                end) true o ++ "}"
  end.

Definition write_document (doc : QJsonDocument) : string :=
  match doc with
  | DocNull => EmptyString
  | DocArray a => write_value (JArray a)
  | DocObject o => write_value (JObject o)
  end.

(** [JSON.stringify]: properties whose value is [undefined] are left out. *)
Fixpoint stringify (v : JsValue) : string :=
  match v with
  | JsUndefined => "undefined"
  | JsNull => "null"
  | JsBool b => if b then "true" else "false"
  | JsNumber n => match n with S754_zero _ => "0" | _ => write_number n end
  | JsString s => write_string s
  | JsObject props =>
      "{" ++ (fix members (first : bool) (l : list (string * JsValue)) : string :=
                match l with
                | [] => EmptyString
                | (k, JsUndefined) :: r => members first r
                | (k, x) :: r =>
                    (if first then EmptyString else ",") ++ write_string k ++ ":" ++ stringify x
                    ++ members false r
                end) true props ++ "}"
  end.

(** *** Reading *)

Definition is_ws (c : ascii) : bool :=
  let n := nat_of_ascii c in
  (n =? 32)%nat || (n =? 9)%nat || (n =? 10)%nat || (n =? 13)%nat.

Fixpoint skip_ws (s : string) : string :=
  match s with
  | String c r => if is_ws c then skip_ws r else s
  | EmptyString => EmptyString
  end.

(** The characters of a string literal after its opening quote. *)
Fixpoint read_string (s : string) : option (string * string) :=
  match s with
  | EmptyString => None
  | String c r =>
      if Ascii.eqb c dquote then Some (EmptyString, r)
      else if Ascii.eqb c backslash then
        match r with
        | String c' r' =>
            if Ascii.eqb c' dquote || Ascii.eqb c' backslash || Ascii.eqb c' "/" then
              match read_string r' with
              | Some (x, rest) => Some (String c' x, rest)
              | None => None
              end
            else None
        | EmptyString => None
        end
      else
        match read_string r with
        | Some (x, rest) => Some (String c x, rest)
        | None => None
        end
  end.

(** The binary64 number of [n / 10^k]: exact when [n / 10^k] is a
    binary fraction, a rounded quotient otherwise. *)
Definition decimal (n : Z) (k : Z) : number :=
  if (n mod 5 ^ k =? 0)%Z then binary_normalize prec emax (n / 5 ^ k) (- k) false
  else SFdiv prec emax (num_of_Z n) (num_of_Z (10 ^ k)).

(** An unsigned numeral [digits] or [digits.digits]. *)
Definition read_unsigned (s : string) : option (number * string) :=
  let (ip, r) := take_digits s in
  if isEmpty ip then None
  else
    match r with
    | String "." r1 =>
        let (fp, r2) := take_digits r1 in
        if isEmpty fp then None
        else
          Some (decimal (Z.of_N (N_of_digits 0 (ip ++ fp))) (Z.of_nat (String.length fp)), r2)
    | _ => Some (num_of_Z (Z.of_N (N_of_digits 0 ip)), r)
    end.

Definition read_number (s : string) : option (number * string) :=
  match s with
  | String "-" r =>
      match read_unsigned r with
      | Some (d, rest) => Some (SFopp d, rest)
      | None => None
      end
  | _ => read_unsigned s
  end.

Definition read_word (w : string) (v : QJsonValue) (s : string) : option (QJsonValue * string) :=
  if prefix w s then Some (v, substring (String.length w) (String.length s - String.length w) s)
  else None.

Fixpoint read_value (n : nat) (s : string) {struct n} : option (QJsonValue * string) :=
  match n with
  | O => None
  | S n' =>
      match skip_ws s with
      | EmptyString => None
      | String c r =>
          if Ascii.eqb c "{" then
            match skip_ws r with
            | String "}" r' => Some (JObject [], r')
            | _ => read_members n' r []
            end
          else if Ascii.eqb c "[" then
            match skip_ws r with
            | String "]" r' => Some (JArray [], r')
            | _ => read_elements n' r []
            end
          else if Ascii.eqb c dquote then
            match read_string r with
            | Some (x, rest) => Some (JString x, rest)
            | None => None
            end
          else if Ascii.eqb c "t" then read_word "true" (JBool true) (String c r)
          else if Ascii.eqb c "f" then read_word "false" (JBool false) (String c r)
          else if Ascii.eqb c "n" then read_word "null" JNull (String c r)
          else
            match read_number (String c r) with
            | Some (d, rest) => Some (JDouble d, rest)
            | None => None
            end
      end
  end
with read_members (n : nat) (s : string) (acc : QJsonObject) {struct n}
  : option (QJsonValue * string) :=
  match n with
  | O => None
  | S n' =>
      match skip_ws s with
      | String c r =>
          if Ascii.eqb c dquote then
            match read_string r with
            | Some (k, r1) =>
                match skip_ws r1 with
                | String ":" r2 =>
                    match read_value n' r2 with
                    | Some (v, r3) =>
                        let acc' := insert k v acc in
                        match skip_ws r3 with
                        | String "," r4 => read_members n' r4 acc'
                        | String "}" r4 => Some (JObject acc', r4)
                        | _ => None
                        end
                    | None => None
                    end
                | _ => None
                end
            | None => None
            end
          else None
      | EmptyString => None
      end
  end
with read_elements (n : nat) (s : string) (acc : list QJsonValue) {struct n}
  : option (QJsonValue * string) :=
  match n with
  | O => None
  | S n' =>
      match read_value n' s with
      | Some (v, r1) =>
          match skip_ws r1 with
          | String "," r2 => read_elements n' r2 (acc ++ [v])
          | String "]" r2 => Some (JArray (acc ++ [v]), r2)
          | _ => None
          end
      | None => None
      end
  end.

(** The value of a whole text. *)
Definition read_text (s : string) : option QJsonValue :=
  match read_value (2 * String.length s + 2) s with
  | Some (v, rest) => if isEmpty (skip_ws rest) then Some v else None
  | None => None
  end.

Definition read_document (data : QByteArray) : ParseResult :=
  match read_text (string_of_list_byte data) with
  | Some (JObject o) => ParseOk (DocObject o)
  | Some (JArray a) => ParseOk (DocArray a)
  | _ => ParseError
  end.

Definition index_key (i : nat) : string := NilEmpty.string_of_uint (Nat.to_uint i).

(** The JavaScript value of a JSON value; an array becomes an object
    with its indices as keys. *)
Fixpoint js_of_json (v : QJsonValue) : JsValue :=
  match v with
  | JNull => JsNull
  | JUndefined => JsUndefined
  | JBool b => JsBool b
  | JDouble d => JsNumber d
  | JString s => JsString s
  | JArray a =>
      JsObject ((fix elems (i : nat) (l : list QJsonValue) : list (string * JsValue) :=
                   match l with
                   | [] => []
                   | x :: r => (index_key i, js_of_json x) :: elems (S i) r
                   end) O a)
  | JObject o =>
      JsObject ((fix members (l : list (QString * QJsonValue)) : list (string * JsValue) :=
                   match l with
                   | [] => []
                   | (k, x) :: r => (k, js_of_json x) :: members r
                   end) o)
  end.

Definition eval (src : QString) : option JsValue :=
  option_map js_of_json (read_text src).

(** The Number of a string: 0 for a blank string, its numeral
    otherwise, NaN when it is not a numeral. *)
Definition string_to_number (s : string) : number :=
  match skip_ws s with
  | EmptyString => num_zero
  | t =>
      match read_number t with
      | Some (d, rest) => if isEmpty (skip_ws rest) then d else S754_nan
      | None => S754_nan
      end
  end.

#[export] Instance platform : Platform := {|
  toUtf8 := list_byte_of_string;
  fromUtf8 := string_of_list_byte;
  fromJson := read_document;
  toJson := fun doc => list_byte_of_string (write_document doc);
  JSON_stringify := stringify;
  StringToNumber := string_to_number;
  js_eval := eval
|}.

End Ref.

(** ** Polling constants of the two timers *)

(** [stateTimer->setInterval(4000)] and [setInterval(..., 500)], in ms. *)
Definition stateTimer_interval : Z := 4000.
Definition poll_interval : Z := 500.

(** [audio.readyState > 0] *)
Definition ready (a : Audio) : bool := (0 <? readyState a)%nat.

(** What a successful [setOnce] does: the position is set to
    [Math.min(time, duration || time)], then playback is resumed
    unless [paused] is truthy. *)
Definition applied_position (time d : number) : number :=
  Math_min time (num_or d time).

Definition applied_effects (time d : number) (pz : JsValue) : list Effect :=
  SetCurrentTime (applied_position time d)
    :: (if ToBoolean pz then [] else [AudioPlay]).

(** The document the capture handler writes for a parsed object, the
    descriptor the restore handler builds from fields [id], [pos],
    [pz], and the script it dispatches for a descriptor. *)
Definition stamped (now : QString) (obj : QJsonObject) : QJsonDocument :=
  DocObject (insert "saved_at"%string (JString now) obj).

Definition normalized (id : QString) (pos : number) (pz : bool) : QJsonObject :=
  [("id"%string, JString id); ("paused"%string, JBool pz); ("time"%string, JDouble pos)].

Definition restore_script {P : Platform} (state : QJsonObject) : Script :=
  RestoreScript (fromUtf8 (toJson (DocObject state))).

(** ** Sample inputs *)

Module Sample.

Open Scope string_scope.

Definition now1 : QString := "2026-01-01T00:00:00Z".
Definition now2 : QString := "2026-01-01T00:00:04Z".

(** An element that is playing, at second 37 of 200. *)
Definition playing : Audio :=
  {| readyState := 4; duration := num_of_Z 200;
     currentTime := num_of_Z 37; paused := false |}.

(** An element that has loaded nothing yet. *)
Definition loading : Audio :=
  {| readyState := 0; duration := S754_nan;
     currentTime := num_zero; paused := true |}.

Definition page_with (a : option Audio) : Page :=
  {| location_hash := "#/song?id=42"; location_pathname := "/st/webplayer";
     document_title := "player"; audio := a; player := None |}.

(** A fresh profile: no state file yet. *)
Definition fresh : World :=
  {| file := None; readable := true; writable := true; dispatched := [] |}.

Definition with_file (data : QByteArray) : World :=
  {| file := Some data; readable := true; writable := true; dispatched := [] |}.

(** The descriptor of second 37 of the song, as the objects the two
    sides see. *)
Definition song : QJsonObject := normalized "#/song?id=42" (num_of_Z 37) false.

Definition song_js : JsValue :=
  JsObject [("id", JsString "#/song?id=42"); ("paused", JsBool false);
            ("time", JsNumber (num_of_Z 37))].

Definition state_at (time : Z) (pz : bool) : JsValue :=
  descriptor "#/song?id=42" (num_of_Z time) pz.

(** The all-default descriptor as the script sees it. *)
Definition default_js : JsValue :=
  JsObject [("id", JsString EmptyString); ("paused", JsBool true);
            ("time", JsNumber num_zero)].

(** An extraction result that is not JSON. *)
Definition not_json : QString := "player not ready".

(** The element at each 500 ms tick: not ready for [n] ticks, and then
    either ready or gone for good. *)
Definition ready_after (n : nat) : list Audio := (repeat loading n ++ [playing])%list.
Definition never_ready (n : nat) : list Audio := repeat loading n.

(** State files: the song at second 37, the song at a position of
    [time], a file with an [id] only, and a top-level array. *)
Definition file_of (doc : QJsonDocument) : World :=
  with_file (toJson (Platform := Ref.platform) doc).

Definition saved_song : World := file_of (stamped now1 song).
Definition saved_at_position (time : Z) : World :=
  file_of (DocObject (normalized "#/song?id=42" (num_of_Z time) true)).
Definition saved_id_only : World :=
  file_of (DocObject [("id", JString "#/song?id=42")]).
Definition saved_array : World :=
  file_of (DocArray [JDouble (num_of_Z 1); JDouble (num_of_Z 2)]).

(** The effects of the latest script handed to the page. *)
Definition run_latest (w : World) (p : Page) (ticks : list Audio) : list Effect :=
  match dispatched w with
  | s :: _ => effects (run_script (P := Ref.platform) s p ticks)
  | [] => []
  end.

End Sample.

(** ** The media commands

    [findFirstMprisService], [sendMprisCommand], [sendX11MediaKey] and
    [sendSystemMediaCommand], over the session bus and the X server as
    the helpers see them.  The warnings written with [qWarning] are
    not part of the model. *)

Section MediaCommands.

Open Scope string_scope.

Record SessionBus : Type := {
  dbus_valid : bool;                          (* dbusIface.isValid() *)
  ListNames : option (list QString);          (* the reply to ListNames; None: not valid *)
  player_valid : QString -> bool;             (* playerIface.isValid() for a service *)
  call_valid : QString -> QString -> bool     (* reply.isValid() of playerIface.call(command) *)
}.

(** [name.startsWith(p)] *)
Definition startsWith (name p : QString) : bool := String.prefix p name.

Definition mpris_prefix : QString := "org.mpris.MediaPlayer2.".

(** The loop over [reply.value()]. *)
Fixpoint first_mpris_name (names : list QString) : QString :=
  match names with
  | [] => EmptyString
  | name :: rest =>
      if startsWith name mpris_prefix then name else first_mpris_name rest
  end.

Definition findFirstMprisService (bus : SessionBus) : QString :=
  if negb (dbus_valid bus) then EmptyString
  else
    match ListNames bus with
    | None => EmptyString
    | Some names => first_mpris_name names
    end.

(** A method call sent to a player on the bus. *)
Inductive BusCall : Type :=
| PlayerCall (service command : QString).

Definition sendMprisCommand (bus : SessionBus) (command : QString) : bool * list BusCall :=
  let service := findFirstMprisService bus in
  if isEmpty service then (false, [])
  else if negb (player_valid bus service) then (false, [])
  else (call_valid bus service command, [PlayerCall service command]).

(** The three key symbols of [XF86keysym.h] the program uses. *)
Inductive KeySym : Type :=
| XF86XK_AudioPlay
| XF86XK_AudioNext
| XF86XK_AudioPrev.

Record XServer : Type := {
  display_opens : bool;                 (* XOpenDisplay(nullptr) != nullptr *)
  XKeysymToKeycode : KeySym -> N        (* 0: the symbol has no key code *)
}.

(** What is asked of the X server, in order. *)
Inductive XRequest : Type :=
| XOpenDisplay
| XTestFakeKeyEvent (keycode : N) (is_press : bool)
| XFlush
| XCloseDisplay.

Definition sendX11MediaKey (x : XServer) (keysym : KeySym) : bool * list XRequest :=
  if negb (display_opens x) then (false, [])
  else
    let keycode := XKeysymToKeycode x keysym in
    if (keycode =? 0)%N then (false, [XOpenDisplay; XCloseDisplay])
    else
      (true, [XOpenDisplay;
              XTestFakeKeyEvent keycode true;
              XTestFakeKeyEvent keycode false;
              XFlush;
              XCloseDisplay]).

(** The outcome of a media command: the result, the bus calls and the
    X requests made. *)
Record Sent : Type := {
  sent_ok : bool;
  bus_calls : list BusCall;
  x_requests : list XRequest
}.

(** [unix] is whether [Q_OS_UNIX] is defined. *)
Definition sendSystemMediaCommand (unix : bool) (bus : SessionBus) (x : XServer)
           (command : QString) : Sent :=
  let (ok, calls) := sendMprisCommand bus command in
  if ok then {| sent_ok := true; bus_calls := calls; x_requests := [] |}
  else if negb unix then {| sent_ok := false; bus_calls := calls; x_requests := [] |}
  else
    let via_key keysym :=
      let (r, reqs) := sendX11MediaKey x keysym in
      {| sent_ok := r; bus_calls := calls; x_requests := reqs |} in
    if String.eqb command "PlayPause" then via_key XF86XK_AudioPlay
    else if String.eqb command "Next" then via_key XF86XK_AudioNext
    else if String.eqb command "Previous" then via_key XF86XK_AudioPrev
    else {| sent_ok := false; bus_calls := calls; x_requests := [] |}.

(** The three media entries of the tray menu; each sends its command
    and writes a warning when that fails. *)
Inductive MediaAction : Type :=
| playPauseAction
| prevAction
| nextAction.

Definition action_command (a : MediaAction) : QString :=
  match a with
  | playPauseAction => "PlayPause"
  | prevAction => "Previous"
  | nextAction => "Next"
  end.

Definition media_action_triggered (unix : bool) (bus : SessionBus) (x : XServer)
           (a : MediaAction) : Sent * bool :=
  let s := sendSystemMediaCommand unix bus x (action_command a) in
  (s, negb (sent_ok s)).      (* the flag: a warning was written *)

End MediaCommands.

(** ** The window and the tray *)

Section Desktop.

Open Scope string_scope.

(** [MainWindow]: the member [m_closeToTray] and the two widget states
    the handlers read. *)
Record MainWindow : Type := {
  m_closeToTray : bool;
  isVisible : bool;
  isMinimized : bool
}.

(** The value [QSettings] holds under the key [closeToTray], which
    only this program writes; [None] when the key is not set. *)
Definition QSettings : Type := option bool.

(** The application: the window, the stored settings, whether the
    tray icon is shown, whether [stateTimer] runs, and whether
    [QApplication::quit] has been called. *)
Record App : Type := {
  window : MainWindow;
  settings : QSettings;
  tray_visible : bool;
  timer_active : bool;
  quit_called : bool
}.

Definition with_window (f : MainWindow -> MainWindow) (app : App) : App :=
  {| window := f (window app); settings := settings app;
     tray_visible := tray_visible app; timer_active := timer_active app;
     quit_called := quit_called app |}.

(** [settings.value("closeToTray", true).toBool()] *)
Definition loadSettings (s : QSettings) (win : MainWindow) : MainWindow :=
  {| m_closeToTray := match s with Some b => b | None => true end;
     isVisible := isVisible win; isMinimized := isMinimized win |}.

(** [settings.setValue("closeToTray", m_closeToTray)] *)
Definition saveSettings (app : App) : App :=
  {| window := window app; settings := Some (m_closeToTray (window app));
     tray_visible := tray_visible app; timer_active := timer_active app;
     quit_called := quit_called app |}.

(** The constructor: [m_closeToTray = true], then [loadSettings()];
    the window is not shown yet. *)
Definition MainWindow_new (s : QSettings) : MainWindow :=
  loadSettings s {| m_closeToTray := true; isVisible := false; isMinimized := false |}.

Definition setCloseToTray (closeToTray : bool) (app : App) : App :=
  saveSettings
    (with_window (fun win => {| m_closeToTray := closeToTray;
                                isVisible := isVisible win;
                                isMinimized := isMinimized win |}) app).

Definition hide (win : MainWindow) : MainWindow :=
  {| m_closeToTray := m_closeToTray win; isVisible := false;
     isMinimized := isMinimized win |}.

Definition show (win : MainWindow) : MainWindow :=
  {| m_closeToTray := m_closeToTray win; isVisible := true;
     isMinimized := isMinimized win |}.

Definition showNormal (win : MainWindow) : MainWindow :=
  {| m_closeToTray := m_closeToTray win; isVisible := true; isMinimized := false |}.

Definition quit (app : App) : App :=
  {| window := window app; settings := settings app;
     tray_visible := tray_visible app; timer_active := timer_active app;
     quit_called := true |}.

(** [closeEvent]: the application after it, and whether the event was
    accepted. *)
Definition closeEvent (app : App) : App * bool :=
  if m_closeToTray (window app) then
    (with_window hide app, false)           (* hide(); event->ignore(); *)
  else
    (quit (saveSettings app), true).        (* saveSettings(); event->accept(); quit(); *)

(** [QSystemTrayIcon::ActivationReason] *)
Inductive ActivationReason : Type :=
| Unknown
| ContextMenu        (* QSystemTrayIcon::Context *)
| DoubleClick
| Trigger
| MiddleClick.

(** The handler of [QSystemTrayIcon::activated]. *)
Definition tray_activated (reason : ActivationReason) (app : App) : App :=
  match reason with
  | Trigger | DoubleClick =>
      if negb (isVisible (window app)) || isMinimized (window app) then
        with_window showNormal app          (* showNormal(); raise(); activateWindow(); *)
      else
        with_window hide app
  | _ => app
  end.

(** The handler of [aboutToQuit]. *)
Definition aboutToQuit (app : App) : App :=
  let app := saveSettings app in
  {| window := window app; settings := settings app;
     tray_visible := if tray_visible app then false else tray_visible app;
     timer_active := false;                 (* stateTimer->stop() *)
     quit_called := quit_called app |}.

(** What the user and Qt send to the handlers connected in [main]. *)
Inductive UiEvent : Type :=
| CloseEvent                              (* the window is asked to close *)
| TrayActivated (reason : ActivationReason)
| ShowAction                              (* showAction triggered *)
| CloseToTrayToggled (checked : bool)     (* closeToTrayAction toggled *)
| ExitDirectlyToggled (checked : bool)    (* exitDirectlyAction toggled *)
| QuitAction                              (* quitAction triggered *)
| AboutToQuit.

Definition handle (e : UiEvent) (app : App) : App :=
  match e with
  | CloseEvent => fst (closeEvent app)
  | TrayActivated reason => tray_activated reason app
  | ShowAction => with_window show app    (* show(); raise(); activateWindow(); *)
  | CloseToTrayToggled checked => if checked then setCloseToTray true app else app
  | ExitDirectlyToggled checked => if checked then setCloseToTray false app else app
  | QuitAction => quit app
  | AboutToQuit => aboutToQuit app
  end.

(** The events of a session, handled in order. *)
Definition handle_all (events : list UiEvent) (app : App) : App :=
  fold_left (fun a e => handle e a) events app.

(** [main] up to [app.exec()]: the window is built from the stored
    settings, the tray icon and the window are shown, the timer is
    started. *)
Definition startup (s : QSettings) : App :=
  {| window := show (MainWindow_new s); settings := s;
     tray_visible := true; timer_active := true; quit_called := false |}.

End Desktop.

(** The events that neither ask to quit nor switch to exiting on
    close, and those among them that also leave the timer alone. *)
Definition stays_in_tray (e : UiEvent) : bool :=
  match e with
  | QuitAction | ExitDirectlyToggled true => false
  | _ => true
  end.

Definition keeps_timer (e : UiEvent) : bool :=
  match e with AboutToQuit => false | _ => true end.

Definition is_click (reason : ActivationReason) : bool :=
  match reason with Trigger | DoubleClick => true | _ => false end.

(** The key symbol the fallback sends for a tray entry. *)
Definition action_keysym (a : MediaAction) : KeySym :=
  match a with
  | playPauseAction => XF86XK_AudioPlay
  | prevAction => XF86XK_AudioPrev
  | nextAction => XF86XK_AudioNext
  end.

(** The stored setting, read back, is the window's behaviour. *)
Definition in_step (app : App) : Prop :=
  m_closeToTray (MainWindow_new (settings app)) = m_closeToTray (window app).

(** After [aboutToQuit] the settings hold the window's behaviour, the
    timer is stopped and the tray icon is hidden. *)
Definition wound_down (app : App) : Prop :=
  settings app = Some (m_closeToTray (window app)) /\
  timer_active app = false /\
  tray_visible app = false.

(** ** Sample desktops *)

Module Desk.

Open Scope string_scope.

(** A session bus with two players behind other services. *)
Definition bus : SessionBus :=
  {| dbus_valid := true;
     ListNames := Some ["org.freedesktop.DBus"; "org.mpris.MediaPlayer2.vlc";
                        "org.kde.StatusNotifierWatcher"; "org.mpris.MediaPlayer2.mpv"];
     player_valid := fun _ => true;
     call_valid := fun _ _ => true |}.

(** A session bus without any player. *)
Definition quiet_bus : SessionBus :=
  {| dbus_valid := true;
     ListNames := Some ["org.freedesktop.DBus"; "org.kde.StatusNotifierWatcher"];
     player_valid := fun _ => true;
     call_valid := fun _ _ => true |}.

(** An X server with key codes for the three symbols. *)
Definition xserver : XServer :=
  {| display_opens := true;
     XKeysymToKeycode := fun k =>
       match k with
       | XF86XK_AudioPlay => 172%N
       | XF86XK_AudioNext => 171%N
       | XF86XK_AudioPrev => 173%N
       end |}.

(** A page whose player has a time accessor that throws. *)
Definition throwing_player : Player :=
  {| getCurrentTime := Some Throw;
     isPlaying := Some (Normal (JsBool true));
     seek := Some (fun _ => Normal tt);
     play := Normal tt |}.

(** A player whose time accessor returns an object that does not
    convert to a number. *)
Definition odd_player : Player :=
  {| getCurrentTime := Some (Normal (JsObject [("toString", JsNull)]));
     isPlaying := Some (Normal (JsBool true));
     seek := Some (fun _ => Normal tt);
     play := Normal tt |}.

Definition page_with_player (pl : Player) : Page :=
  {| location_hash := EmptyString; location_pathname := "/st/webplayer";
     document_title := "player"; audio := None; player := Some pl |}.

(** An evening at the desk: the window is closed to the tray, brought
    back, closed again, and the tray entries are used. *)
Definition evening : list UiEvent :=
  [CloseEvent; TrayActivated Trigger; CloseEvent;
   CloseToTrayToggled true; ShowAction; TrayActivated MiddleClick].

End Desk.

(** ** The two handlers over a session

    The results delivered to the capture callback and the load events,
    in the order the event loop hands them to the handlers. *)

Inductive SyncEvent : Type :=
| Captured (now : QString) (result : QVariant)   (* the callback of a timer tick *)
| Loaded (ok : bool).                            (* loadFinished(ok) *)

Definition is_capture (e : SyncEvent) : bool :=
  match e with Captured _ _ => true | Loaded _ => false end.

Definition is_successful_load (e : SyncEvent) : bool :=
  match e with Loaded true => true | _ => false end.

Definition sync {P : Platform} (e : SyncEvent) (w : World) : World :=
  match e with
  | Captured now result => read_state_callback now result w
  | Loaded ok => loadFinished ok w
  end.

Definition sync_all {P : Platform} (events : list SyncEvent) (w : World) : World :=
  fold_left (fun w e => sync e w) events w.

(** ** What one restore may do to the page *)

(** The effects a restore can have on the page. *)
Inductive one_restore : list Effect -> Prop :=
| restore_nothing : one_restore []
| restore_seek (v : number) : one_restore [SetCurrentTime v]
| restore_seek_play (v : number) : one_restore [SetCurrentTime v; AudioPlay]
| restore_player_seek (t : JsValue) : one_restore [PlayerSeek t]
| restore_player_seek_play (t : JsValue) : one_restore [PlayerSeek t; PlayerPlay].

(** The fallback on [window.player], whatever the state is. *)
Definition player_fallback (state : JsValue) (pl : Player)
           (seek_call : JsValue -> Completion unit) : list Effect :=
  match Get state "time"%string with
  | Throw => []
  | Normal t =>
      match seek_call t with
      | Throw => []
      | Normal _ =>
          PlayerSeek t ::
            match Get state "paused"%string with
            | Throw => []
            | Normal pz =>
                if ToBoolean pz then []
                else match play pl with Normal _ => [PlayerPlay] | Throw => [] end
            end
      end
  end.

(** A hypothesis at a concrete input holds by evaluation. *)
Ltac by_evaluation :=
  first [ reflexivity
        | lia
        | vm_compute; reflexivity
        | solve [repeat constructor]
        | intros; discriminate ].

(** * Facts about numbers *)

Section NumberFacts.

Lemma SFcompare_refl (x : number) :
  is_nan x = false -> SFcompare x x = Some Eq.
Proof.
  destruct x as [s|s| |s m e]; simpl; try discriminate; intros _.
  - reflexivity.
  - destruct s; reflexivity.
  - rewrite Z.compare_refl.
    replace (Pos.compare_cont Eq m m) with Eq
      by (symmetry; apply Pos.compare_cont_refl).
    destruct s; reflexivity.
Qed.

Lemma SFcompare_antisym (a b : number) (c : comparison) :
  SFcompare a b = Some c -> SFcompare b a = Some (CompOpp c).
Proof.
  destruct a as [sa|sa| |sa ma ea], b as [sb|sb| |sb mb eb]; simpl;
    try discriminate;
    try (intros H; injection H as <-; try destruct sa; try destruct sb; reflexivity).
  intros H; injection H as <-.
  rewrite (Z.compare_antisym ea eb).
  change (Pos.compare_cont Eq mb ma) with (Pos.compare mb ma).
  change (Pos.compare_cont Eq ma mb) with (Pos.compare ma mb).
  rewrite (Pos.compare_antisym ma mb).
  destruct sa, sb; simpl; try reflexivity;
    destruct (ea ?= eb)%Z; simpl; try reflexivity;
    destruct (ma ?= mb)%positive; reflexivity.
Qed.

Lemma SFcompare_not_nan (a b : number) :
  is_nan a = false -> is_nan b = false -> SFcompare a b <> None.
Proof.
  destruct a, b; simpl; intros; discriminate.
Qed.

(** [Math.min] returns one of its arguments unless one is NaN. *)
Lemma Math_min_cases (a b : number) :
  SFcompare a b <> None -> Math_min a b = a \/ Math_min a b = b.
Proof.
  unfold Math_min. destruct (SFcompare a b) as [[ | | ]|]; intros H; auto.
  - destruct a as [[|]| | |]; auto.
  - contradiction.
Qed.

Lemma Math_min_le_l (a b : number) :
  is_nan a = false -> is_nan b = false -> SFleb (Math_min a b) a = true.
Proof.
  intros Ha Hb. unfold Math_min.
  destruct (SFcompare a b) as [c|] eqn:E.
  - destruct c.
    + assert (Hba : SFleb b a = true)
        by (unfold SFleb; rewrite (SFcompare_antisym _ _ E); reflexivity).
      destruct a as [[|]| | |]; try exact Hba;
        unfold SFleb; rewrite SFcompare_refl; auto.
    + unfold SFleb. rewrite SFcompare_refl; auto.
    + unfold SFleb. rewrite (SFcompare_antisym _ _ E). reflexivity.
  - exfalso. exact (SFcompare_not_nan _ _ Ha Hb E).
Qed.

Lemma Math_min_le_r (a b : number) :
  is_nan a = false -> is_nan b = false -> SFleb (Math_min a b) b = true.
Proof.
  intros Ha Hb. unfold Math_min.
  destruct (SFcompare a b) as [c|] eqn:E.
  - destruct c.
    + assert (Hab : SFleb a b = true) by (unfold SFleb; rewrite E; reflexivity).
      destruct a as [[|]| | |]; try exact Hab;
        unfold SFleb; rewrite SFcompare_refl; auto.
    + unfold SFleb. rewrite E. reflexivity.
    + unfold SFleb. rewrite SFcompare_refl; auto.
  - exfalso. exact (SFcompare_not_nan _ _ Ha Hb E).
Qed.

Lemma SFleb_not_nan_l (a b : number) : SFleb a b = true -> is_nan a = false.
Proof. destruct a, b; simpl; intros H; try reflexivity; discriminate H. Qed.

Lemma SFleb_not_nan_r (a b : number) : SFleb a b = true -> is_nan b = false.
Proof. destruct a, b; simpl; intros H; try reflexivity; discriminate H. Qed.

Lemma num_truthy_not_nan (d : number) : num_truthy d = true -> is_nan d = false.
Proof. destruct d; simpl; intros H; try reflexivity; discriminate H. Qed.

(** The clamped position never exceeds the persisted position. *)
Lemma applied_position_le_time (time d : number) :
  is_nan time = false -> SFleb (applied_position time d) time = true.
Proof.
  intros Ht. unfold applied_position, num_or.
  destruct (num_truthy d) eqn:Hd.
  - apply Math_min_le_l; auto using num_truthy_not_nan.
  - apply Math_min_le_l; auto.
Qed.

(** With a known (truthy) duration it is [Math.min(time, duration)],
    which is at most the duration. *)
Lemma applied_position_known (time d : number) :
  num_truthy d = true -> applied_position time d = Math_min time d.
Proof. intros Hd. unfold applied_position, num_or. rewrite Hd. reflexivity. Qed.

Lemma applied_position_le_duration (time d : number) :
  is_nan time = false -> num_truthy d = true ->
  SFleb (applied_position time d) d = true.
Proof.
  intros Ht Hd. rewrite applied_position_known by assumption.
  apply Math_min_le_r; auto using num_truthy_not_nan.
Qed.

(** A non-negative position under a non-negative duration stays
    non-negative. *)
Lemma applied_position_nonneg (time d : number) :
  SFleb num_zero time = true -> SFltb d num_zero = false ->
  SFleb num_zero (applied_position time d) = true.
Proof.
  intros Ht Hd. unfold applied_position, num_or.
  destruct (num_truthy d) eqn:Htr.
  - destruct (Math_min_cases time d) as [-> | ->]; auto.
    + apply SFcompare_not_nan; eauto using SFleb_not_nan_r, num_truthy_not_nan.
    + unfold SFltb in Hd. unfold SFleb.
      assert (Hn : is_nan d = false) by auto using num_truthy_not_nan.
      destruct (SFcompare d num_zero) as [c|] eqn:E.
      * rewrite (SFcompare_antisym _ _ E).
        destruct c; simpl in *; try reflexivity; discriminate Hd.
      * destruct d; simpl in *; discriminate.
  - destruct (Math_min_cases time time) as [-> | ->]; auto.
    apply SFcompare_not_nan; eauto using SFleb_not_nan_r.
Qed.

End NumberFacts.

(** * Facts about JSON objects *)

Section ObjectFacts.

Open Scope string_scope.

Lemma string_compare_refl (k : string) : String.compare k k = Eq.
Proof.
  pose proof (String.compare_antisym k k) as H.
  destruct (String.compare k k); simpl in H; congruence.
Qed.

Lemma value_insert_same (k : QString) (v : QJsonValue) (o : QJsonObject) :
  value k (insert k v o) = v.
Proof.
  induction o as [|[k' w] rest IH]; simpl.
  - rewrite String.eqb_refl. reflexivity.
  - destruct (String.compare k k') eqn:E; simpl.
    + rewrite String.eqb_refl. reflexivity.
    + rewrite String.eqb_refl. reflexivity.
    + destruct (String.eqb k k') eqn:Ek.
      * apply String.eqb_eq in Ek. subst k'.
        rewrite string_compare_refl in E. discriminate E.
      * exact IH.
Qed.

Lemma value_insert_other (k k' : QString) (v : QJsonValue) (o : QJsonObject) :
  k' <> k -> value k' (insert k v o) = value k' o.
Proof.
  intros Hne. induction o as [|[k0 w] rest IH]; simpl.
  - apply String.eqb_neq in Hne. rewrite Hne. reflexivity.
  - destruct (String.compare k k0) eqn:E; simpl.
    + apply String.compare_eq_iff in E. subst k0.
      apply String.eqb_neq in Hne. rewrite Hne. reflexivity.
    + apply String.eqb_neq in Hne. rewrite Hne. reflexivity.
    + destruct (String.eqb k' k0); [reflexivity | exact IH].
Qed.

(** The rebuilt descriptor, whatever the stored object holds. *)
Lemma rebuilt_state_eq (obj : QJsonObject) :
  rebuilt_state obj =
    [("id", JString (toString (value "id" obj) EmptyString));
     ("paused", JBool (toBool (value "paused" obj) true));
     ("time", JDouble (toDouble (value "time" obj) num_zero))].
Proof.
  unfold rebuilt_state. simpl.
  destruct (value "id" obj); reflexivity.
Qed.

End ObjectFacts.

(** * Facts about the restore script *)

Section ScriptFacts.

Context {P : Platform}.

Open Scope string_scope.

#[local] Arguments Nat.sub : simpl never.
#[local] Arguments Nat.ltb : simpl never.

(** A value with a numeric [time] can only be an object. *)
Lemma state_with_time_truthy (state : JsValue) (t : number) :
  Get state "time" = Normal (JsNumber t) -> ToBoolean state = true.
Proof. destruct state; simpl; intros H; try reflexivity; discriminate H. Qed.

Lemma setOnce_not_ready (state : JsValue) (a : Audio) :
  ready a = false -> setOnce state a = ([], Normal false).
Proof. unfold ready, setOnce. intros ->. reflexivity. Qed.

Lemma setOnce_ready (state : JsValue) (a : Audio) (t : number) (pz : JsValue) :
  ready a = true ->
  Get state "time" = Normal (JsNumber t) ->
  Get state "paused" = Normal pz ->
  setOnce state a = (applied_effects t (duration a) pz, Normal true).
Proof.
  unfold ready, setOnce. intros -> Ht Hp.
  unfold lift. rewrite Ht, Hp. unfold applied_effects, applied_position.
  simpl. unfold js_or, num_or. simpl.
  destruct (num_truthy (duration a)); destruct (ToBoolean pz); reflexivity.
Qed.

(** [setOnce] catches whatever is thrown inside it. *)
Lemma setOnce_no_throw (state : JsValue) (a : Audio) :
  is_throw (snd (setOnce state a)) = false.
Proof.
  unfold setOnce.
  match goal with
  | |- context [try_catch ?m _] => destruct m as [l [x|]]; reflexivity
  end.
Qed.

(** The callback runs at most [21 - tries] times. *)
Lemma interval_polls_bound (state : JsValue) (ticks : list Audio) :
  forall tries, tries <= 20 -> polls (interval state tries ticks) <= 21 - tries.
Proof.
  induction ticks as [|a rest IH]; intros tries Hle; simpl.
  - lia.
  - destruct (setOnce state a) as [eff r].
    destruct (is_true r || (20 <? S tries)%nat) eqn:E; simpl.
    + lia.
    + apply orb_false_iff in E. destruct E as [_ E].
      apply Nat.ltb_ge in E.
      specialize (IH (S tries) E). lia.
Qed.

Lemma interval_not_raised (state : JsValue) (ticks : list Audio) :
  forall tries, raised (interval state tries ticks) = false.
Proof.
  induction ticks as [|a rest IH]; intros tries; simpl.
  - reflexivity.
  - pose proof (setOnce_no_throw state a) as Hs.
    destruct (setOnce state a) as [eff r]. simpl in Hs.
    destruct (is_true r || (20 <? S tries)%nat); simpl.
    + exact Hs.
    + rewrite Hs, IH. reflexivity.
Qed.

(** Once [21 - tries] ticks have come the interval is cleared. *)
Lemma interval_cleared (state : JsValue) (ticks : list Audio) :
  forall tries, tries <= 20 -> 21 - tries <= List.length ticks ->
                armed (interval state tries ticks) = false.
Proof.
  induction ticks as [|a rest IH]; intros tries Hle Hlen; simpl in *.
  - lia.
  - destruct (setOnce state a) as [eff r].
    destruct (is_true r || (20 <? S tries)%nat) eqn:E; simpl.
    + reflexivity.
    + apply orb_false_iff in E. destruct E as [_ E].
      apply Nat.ltb_ge in E. apply IH; lia.
Qed.

(** While the element is not ready the callback does nothing but count. *)
Lemma interval_never_ready (state : JsValue) (ticks : list Audio) :
  Forall (fun a => ready a = false) ticks ->
  forall tries, tries <= 20 ->
    effects (interval state tries ticks) = [] /\
    polls (interval state tries ticks) = Nat.min (21 - tries) (List.length ticks) /\
    armed (interval state tries ticks) = (List.length ticks <? 21 - tries)%nat.
Proof.
  induction 1 as [|a rest Ha _ IH]; intros tries Hle; simpl.
  - rewrite Nat.min_0_r.
    replace (0 <? 21 - tries)%nat with true
      by (symmetry; apply Nat.ltb_lt; lia).
    auto.
  - rewrite (setOnce_not_ready state a Ha). simpl.
    destruct (20 <? S tries)%nat eqn:E; simpl.
    + apply Nat.ltb_lt in E. assert (tries = 20) by lia. subst tries. simpl.
      auto.
    + apply Nat.ltb_ge in E. destruct (IH (S tries) E) as (He & Hp & Ha').
      rewrite He, Hp, Ha'. repeat split.
      * destruct (21 - tries) as [|n] eqn:En; [lia|].
        replace (21 - S tries) with n by lia. reflexivity.
      * destruct (21 - tries) as [|n] eqn:En; [lia|].
        replace (21 - S tries) with n by lia. reflexivity.
Qed.

(** The element becomes ready at tick [S (List.length pre)], in time. *)
Lemma interval_ready_at (state : JsValue) (t : number) (pz : JsValue)
      (pre : list Audio) (a : Audio) (post : list Audio) :
  Get state "time" = Normal (JsNumber t) ->
  Get state "paused" = Normal pz ->
  Forall (fun a => ready a = false) pre ->
  ready a = true ->
  forall tries, tries + List.length pre <= 20 ->
    interval state tries (pre ++ a :: post) =
      {| effects := applied_effects t (duration a) pz;
         polls := S (List.length pre); armed := false; raised := false |}.
Proof.
  intros Ht Hp Hpre Ha.
  induction Hpre as [|b pre Hb _ IH]; intros tries Hle; simpl in *.
  - rewrite (setOnce_ready state a Ha Ht Hp). simpl. reflexivity.
  - rewrite (setOnce_not_ready state b Hb). simpl.
    replace (20 <? S tries)%nat with false
      by (symmetry; apply Nat.ltb_ge; lia).
    rewrite IH by lia. simpl. reflexivity.
Qed.

(** The script body when the element is there and [state.time] is a
    number: one immediate [setOnce], and the interval is set exactly
    when that failed. *)
Lemma restore_body_audio (state : JsValue) (p : Page) (a : Audio) (t : number) :
  audio p = Some a ->
  Get state "time" = Normal (JsNumber t) ->
  restore_body state p =
    (fst (setOnce state a), Normal (negb (is_true (snd (setOnce state a))))).
Proof.
  intros Ha Ht. unfold restore_body. rewrite Ha.
  rewrite (state_with_time_truthy state Ht).
  unfold lift. rewrite Ht. simpl.
  pose proof (setOnce_no_throw state a) as Hs.
  destruct (setOnce state a) as [eff [b|]]; simpl in *.
  - rewrite !app_nil_r. reflexivity.
  - discriminate Hs.
Qed.

Lemma restore_ready_now (state : JsValue) (p : Page) (a : Audio)
      (t : number) (pz : JsValue) (ticks : list Audio) :
  audio p = Some a -> ready a = true ->
  Get state "time" = Normal (JsNumber t) ->
  Get state "paused" = Normal pz ->
  js_restore_state state p ticks =
    {| effects := applied_effects t (duration a) pz;
       polls := 0; armed := false; raised := false |}.
Proof.
  intros Ha Hr Ht Hp. unfold js_restore_state.
  rewrite (restore_body_audio state p Ha Ht).
  rewrite (setOnce_ready state a Hr Ht Hp). simpl. reflexivity.
Qed.

Lemma restore_polling (state : JsValue) (p : Page) (a : Audio)
      (t : number) (ticks : list Audio) :
  audio p = Some a -> ready a = false ->
  Get state "time" = Normal (JsNumber t) ->
  js_restore_state state p ticks = interval state 0 ticks.
Proof.
  intros Ha Hr Ht. unfold js_restore_state.
  rewrite (restore_body_audio state p Ha Ht).
  rewrite (setOnce_not_ready state a Hr). simpl.
  destruct (interval state 0 ticks); reflexivity.
Qed.

(** No exception escapes the script. *)
Lemma try_catch_ret_no_throw {A} (m : Js A) (a : A) :
  is_throw (snd (try_catch m (ret a))) = false.
Proof. destruct m as [l [x|]]; reflexivity. Qed.

Lemma restore_body_no_throw (state : JsValue) (p : Page) :
  is_throw (snd (restore_body state p)) = false.
Proof. unfold restore_body. apply try_catch_ret_no_throw. Qed.

Lemma js_restore_state_not_raised (state : JsValue) (p : Page) (ticks : list Audio) :
  raised (js_restore_state state p ticks) = false.
Proof.
  unfold js_restore_state.
  pose proof (restore_body_no_throw state p) as H.
  destruct (restore_body state p) as [eff [[|]|]]; simpl in *.
  - apply interval_not_raised.
  - reflexivity.
  - discriminate H.
Qed.

End ScriptFacts.

(** * The properties of the synchronizer *)

Section Claims.

Context {P : Platform}.

Open Scope string_scope.

#[local] Arguments Nat.sub : simpl never.
#[local] Arguments Nat.ltb : simpl never.

Lemma write_file_writable (data : QByteArray) (w : World) :
  writable w = true ->
  write_file data w =
    {| file := Some data; readable := readable w;
       writable := writable w; dispatched := dispatched w |}.
Proof. unfold write_file. intros ->. reflexivity. Qed.

(** The capture callback on a result the codec parses. *)
Lemma capture_parsed (now jsonStr : QString) (doc : QJsonDocument) (w : World) :
  isEmpty jsonStr = false ->
  fromJson (toUtf8 jsonStr) = ParseOk doc ->
  read_state_callback now (QVString jsonStr) w =
    write_file (toJson (stamped now (object doc))) w.
Proof. intros He Hp. unfold read_state_callback. rewrite He, Hp. reflexivity. Qed.

(** The capture callback on a result the codec rejects. *)
Lemma capture_raw (now jsonStr : QString) (w : World) :
  isEmpty jsonStr = false ->
  fromJson (toUtf8 jsonStr) = ParseError ->
  read_state_callback now (QVString jsonStr) w = write_file (toUtf8 jsonStr) w.
Proof. intros He Hp. unfold read_state_callback. rewrite He, Hp. reflexivity. Qed.

(** The restore handler on an artifact the codec parses. *)
Lemma restore_parsed (data : QByteArray) (doc : QJsonDocument) (w : World) :
  file w = Some data -> readable w = true ->
  fromJson data = ParseOk doc ->
  loadFinished true w =
    runJavaScript
      (restore_script
         (normalized (toString (value "id" (object doc)) EmptyString)
                     (toDouble (value "time" (object doc)) num_zero)
                     (toBool (value "paused" (object doc)) true))) w.
Proof.
  intros Hf Hr Hp. unfold loadFinished. simpl. rewrite Hf, Hr, Hp. simpl.
  rewrite rebuilt_state_eq. reflexivity.
Qed.

(** The outcome of the script once the element is ready at the
    immediate attempt or at one of the first 21 polls. *)
Lemma restore_ready_within (state : JsValue) (p : Page) (a0 a : Audio)
      (t : number) (pz : JsValue) (ticks pre post : list Audio) :
  audio p = Some a0 ->
  Get state "time" = Normal (JsNumber t) ->
  Get state "paused" = Normal pz ->
  (a0 :: ticks = pre ++ a :: post)%list ->
  Forall (fun x => ready x = false) pre ->
  List.length pre <= 21 ->
  ready a = true ->
  js_restore_state state p ticks =
    {| effects := applied_effects t (duration a) pz;
       polls := List.length pre; armed := false; raised := false |}.
Proof.
  intros Ha Ht Hp Hsplit Hpre Hlen Hr.
  destruct pre as [|b pre']; simpl in Hsplit; injection Hsplit as <- ->.
  - apply restore_ready_now; assumption.
  - inversion Hpre as [|? ? Hb Hpre']; subst.
    rewrite (restore_polling state p (pre' ++ a :: post) Ha Hb Ht).
    simpl in Hlen.
    rewrite (interval_ready_at state a post Ht Hp Hpre' Hr) by lia.
    reflexivity.
Qed.

Lemma applied_position_zero (d : number) :
  SFltb d num_zero = false -> applied_position num_zero d = num_zero.
Proof.
  destruct d as [s|[|]| |[|] m e]; simpl; intros H;
    try reflexivity; discriminate H.
Qed.

Lemma in_play_iff (v : number) (pz : bool) :
  In AudioPlay (SetCurrentTime v :: (if pz then [] else [AudioPlay])) <-> pz = false.
Proof.
  destruct pz; simpl; split; intros H.
  - destruct H as [H|[]]. discriminate H.
  - discriminate H.
  - reflexivity.
  - right. left. reflexivity.
Qed.

(** C1 (round trip).  A descriptor with a string [id], a position
    [pos >= 0] and a [paused] flag that the capture callback parses and
    writes is read back by the restore handler on a successful load:
    the script it dispatches carries the same [id], [pos] and [paused];
    run on a page whose audio element is ready at the immediate attempt
    or at one of the first 21 polls, the script sets the position to
    [Math.min(pos, duration || pos)], which is at most [pos] and at
    most the duration when the duration is known (truthy), and calls
    [play] if and only if [paused] is false. *)
Theorem capture_restore_roundtrip
    (now jsonStr : QString) (obj : QJsonObject)
    (id : QString) (pos : number) (pz : bool) (w : World)
    (state : JsValue) (p : Page) (a0 a : Audio) (ticks pre post : list Audio) :
  isEmpty jsonStr = false ->
  fromJson (toUtf8 jsonStr) = ParseOk (DocObject obj) ->
  value "id" obj = JString id ->
  value "time" obj = JDouble pos ->
  value "paused" obj = JBool pz ->
  SFleb num_zero pos = true ->
  writable w = true ->
  readable w = true ->
  fromJson (toJson (stamped now obj)) = ParseOk (stamped now obj) ->
  js_eval (fromUtf8 (toJson (DocObject (normalized id pos pz)))) = Some state ->
  Get state "time" = Normal (JsNumber pos) ->
  Get state "paused" = Normal (JsBool pz) ->
  audio p = Some a0 ->
  (a0 :: ticks = pre ++ a :: post)%list ->
  Forall (fun x => ready x = false) pre ->
  List.length pre <= 21 ->
  ready a = true ->
  file (read_state_callback now (QVString jsonStr) w) = Some (toJson (stamped now obj)) /\
  dispatched (loadFinished true (read_state_callback now (QVString jsonStr) w)) =
    restore_script (normalized id pos pz) :: dispatched w /\
  effects (run_script (restore_script (normalized id pos pz)) p ticks) =
    SetCurrentTime (applied_position pos (duration a))
      :: (if pz then [] else [AudioPlay]) /\
  SFleb (applied_position pos (duration a)) pos = true /\
  (num_truthy (duration a) = true ->
   SFleb (applied_position pos (duration a)) (duration a) = true) /\
  (In AudioPlay (effects (run_script (restore_script (normalized id pos pz)) p ticks))
   <-> pz = false).
Proof.
  intros He Hparse Hid Htime Hpaused Hpos Hw Hr Hback Heval Ht Hp Ha Hsplit Hpre Hlen Hready.
  assert (Hnan : is_nan pos = false) by (eapply SFleb_not_nan_r; exact Hpos).
  rewrite (capture_parsed now jsonStr w He Hparse). simpl object.
  rewrite (write_file_writable _ w Hw).
  assert (Hrun : effects (run_script (restore_script (normalized id pos pz)) p ticks) =
                 SetCurrentTime (applied_position pos (duration a))
                   :: (if pz then [] else [AudioPlay])).
  { unfold run_script, restore_script. rewrite Heval.
    rewrite (@restore_ready_within state p a0 a pos (JsBool pz) ticks pre post
               Ha Ht Hp Hsplit Hpre Hlen Hready).
    simpl. destruct pz; reflexivity. }
  repeat split.
  - erewrite restore_parsed; [| reflexivity | exact Hr | exact Hback].
    unfold stamped, object.
    rewrite !value_insert_other by discriminate.
    rewrite Hid, Htime, Hpaused. reflexivity.
  - exact Hrun.
  - apply applied_position_le_time. exact Hnan.
  - intros Hd. apply applied_position_le_duration; assumption.
  - rewrite Hrun. apply in_play_iff.
  - rewrite Hrun. apply in_play_iff.
Qed.

(** C2, as amended.  When the audio element is there but not ready at
    the immediate attempt, the script polls every 500 ms.  The
    callback runs at most 21 times (it clears the interval when
    [tries > 20], that is on its 21st run), so within 10500 ms; no
    exception escapes; once 21 ticks have passed the interval is
    cleared.  If the element is never ready nothing is done to the
    page.  If it is first ready on a poll up to the 21st, that poll
    sets the position, resumes playback unless paused, and clears the
    interval. *)
Theorem restore_polling_bound
    (state : JsValue) (p : Page) (a0 : Audio) (t : number) (pz : JsValue)
    (ticks : list Audio) :
  audio p = Some a0 ->
  ready a0 = false ->
  Get state "time" = Normal (JsNumber t) ->
  Get state "paused" = Normal pz ->
  polls (js_restore_state state p ticks) <= 21 /\
  (Z.of_nat (polls (js_restore_state state p ticks)) * poll_interval <= 10500)%Z /\
  raised (js_restore_state state p ticks) = false /\
  (21 <= List.length ticks -> armed (js_restore_state state p ticks) = false) /\
  (Forall (fun x => ready x = false) ticks ->
   effects (js_restore_state state p ticks) = [] /\
   polls (js_restore_state state p ticks) = Nat.min 21 (List.length ticks)) /\
  (forall pre a post,
      ticks = (pre ++ a :: post)%list ->
      Forall (fun x => ready x = false) pre ->
      List.length pre <= 20 ->
      ready a = true ->
      effects (js_restore_state state p ticks) = applied_effects t (duration a) pz /\
      polls (js_restore_state state p ticks) = S (List.length pre) /\
      armed (js_restore_state state p ticks) = false).
Proof.
  intros Ha Hr Ht Hp.
  rewrite (restore_polling state p ticks Ha Hr Ht).
  pose proof (interval_polls_bound state ticks (tries := 0) (Nat.le_0_l 20)) as Hb.
  change (21 - 0) with 21 in Hb.
  split; [exact Hb|].
  split; [unfold poll_interval; lia|].
  split; [apply interval_not_raised|].
  split; [intros Hlen; apply interval_cleared; [lia | exact Hlen]|].
  split.
  - intros Hnever.
    destruct (interval_never_ready state Hnever (tries := 0) (Nat.le_0_l 20))
      as (He & Hpolls & _).
    split; [exact He | exact Hpolls].
  - intros pre a post -> Hpre Hlen Hready.
    rewrite (interval_ready_at state a post Ht Hp Hpre Hready) by (simpl; lia).
    simpl. auto.
Qed.

(** C3, as amended.  When the audio element is present and ready the
    script sets the position to [Math.min(time, duration || time)]:
    with a known (truthy) duration this is [Math.min(time, duration)],
    which is at most the duration (500 under a duration of 200 gives
    200); it is not negative when neither the persisted position nor
    the duration is negative.  There is no lower clamp. *)
Theorem restore_clamps_position
    (state : JsValue) (p : Page) (a : Audio) (t : number) (pz : JsValue)
    (ticks : list Audio) :
  audio p = Some a ->
  ready a = true ->
  Get state "time" = Normal (JsNumber t) ->
  Get state "paused" = Normal pz ->
  effects (js_restore_state state p ticks) =
    SetCurrentTime (applied_position t (duration a))
      :: (if ToBoolean pz then [] else [AudioPlay]) /\
  (num_truthy (duration a) = true ->
   applied_position t (duration a) = Math_min t (duration a)) /\
  (is_nan t = false -> num_truthy (duration a) = true ->
   SFleb (applied_position t (duration a)) (duration a) = true) /\
  applied_position (num_of_Z 500) (num_of_Z 200) = num_of_Z 200 /\
  (SFleb num_zero t = true -> SFltb (duration a) num_zero = false ->
   SFleb num_zero (applied_position t (duration a)) = true).
Proof.
  intros Ha Hr Ht Hp.
  rewrite (restore_ready_now state p ticks Ha Hr Ht Hp). simpl.
  split; [reflexivity|].
  split; [apply applied_position_known|].
  split; [apply applied_position_le_duration|].
  split; [vm_compute; reflexivity|].
  apply applied_position_nonneg.
Qed.

(** C4 (fallback write).  A non-empty extraction result that the codec
    rejects is written as it is: the state file then holds exactly the
    UTF-8 bytes of the result, whatever it held before and whatever
    the time; nothing else changes. *)
Theorem capture_fallback_verbatim (now jsonStr : QString) (w : World) :
  isEmpty jsonStr = false ->
  fromJson (toUtf8 jsonStr) = ParseError ->
  writable w = true ->
  file (read_state_callback now (QVString jsonStr) w) = Some (toUtf8 jsonStr) /\
  dispatched (read_state_callback now (QVString jsonStr) w) = dispatched w.
Proof.
  intros He Hp Hw.
  rewrite (capture_raw now jsonStr w He Hp), (write_file_writable _ w Hw).
  split; reflexivity.
Qed.

(** C5 (capture idempotence).  Two consecutive captures of an
    unchanged page whose descriptor the codec parses both write the
    state file; read back, the two contents are descriptors with the
    [id], [time] and [paused] of the live state -- the same in both --
    and they differ in [saved_at] only, which holds the time of each
    capture. *)
Theorem capture_idempotent
    (now1 now2 jsonStr : QString) (obj : QJsonObject)
    (id : QString) (pos : number) (pz : bool) (p : Page) (w : World) :
  runJavaScript_result (js_read_state p) = QVString jsonStr ->
  isEmpty jsonStr = false ->
  fromJson (toUtf8 jsonStr) = ParseOk (DocObject obj) ->
  value "id" obj = JString id ->
  value "time" obj = JDouble pos ->
  value "paused" obj = JBool pz ->
  writable w = true ->
  fromJson (toJson (stamped now1 obj)) = ParseOk (stamped now1 obj) ->
  fromJson (toJson (stamped now2 obj)) = ParseOk (stamped now2 obj) ->
  exists (data1 data2 : QByteArray) (d1 d2 : QJsonObject),
    file (stateTimer_timeout now1 p w) = Some data1 /\
    file (stateTimer_timeout now2 p (stateTimer_timeout now1 p w)) = Some data2 /\
    fromJson data1 = ParseOk (DocObject d1) /\
    fromJson data2 = ParseOk (DocObject d2) /\
    (value "id" d1 = JString id /\ value "time" d1 = JDouble pos /\
     value "paused" d1 = JBool pz) /\
    (value "id" d2 = JString id /\ value "time" d2 = JDouble pos /\
     value "paused" d2 = JBool pz) /\
    value "saved_at" d1 = JString now1 /\
    value "saved_at" d2 = JString now2 /\
    (forall k, k <> "saved_at" -> value k d1 = value k d2).
Proof.
  intros Hres He Hp Hid Htime Hpaused Hw Hback1 Hback2.
  exists (toJson (stamped now1 obj)), (toJson (stamped now2 obj)),
    (insert "saved_at" (JString now1) obj), (insert "saved_at" (JString now2) obj).
  unfold stateTimer_timeout. rewrite Hres.
  rewrite !(capture_parsed _ jsonStr _ He Hp). simpl object.
  rewrite (write_file_writable _ w Hw).
  rewrite write_file_writable by exact Hw.
  split; [reflexivity|]. split; [reflexivity|].
  split; [exact Hback1|]. split; [exact Hback2|].
  rewrite !value_insert_other by discriminate.
  rewrite !value_insert_same.
  repeat split; try assumption.
  intros k Hk. rewrite !value_insert_other by exact Hk. reflexivity.
Qed.

(** C6 (restore preconditions).  When the load failed, or the state
    file does not exist, or it cannot be opened for reading, the
    restore handler changes nothing: no script is handed to the page
    and the file is as it was. *)
Theorem restore_precondition_noop (ok : bool) (w : World) :
  ok = false \/ file w = None \/ readable w = false ->
  loadFinished ok w = w.
Proof.
  unfold loadFinished. intros [-> | [Hf | Hr]].
  - reflexivity.
  - rewrite Hf. destruct ok; reflexivity.
  - rewrite Hr. destruct ok; simpl; [destruct (file w)|]; reflexivity.
Qed.

(** C7 (restore on a parse failure).  When the bytes of the state file
    fail to parse the restore handler changes nothing: no script is
    handed to the page and the file is as it was.  In particular the
    world left by a fallback write is left as it is by any later load
    event, so a fallback write is never restored. *)
Theorem restore_parse_failure_noop (ok : bool) (w : World) (data : QByteArray) :
  file w = Some data ->
  fromJson data = ParseError ->
  loadFinished ok w = w /\
  (forall now jsonStr w0,
      isEmpty jsonStr = false ->
      fromJson (toUtf8 jsonStr) = ParseError ->
      writable w0 = true ->
      loadFinished ok (read_state_callback now (QVString jsonStr) w0) =
        read_state_callback now (QVString jsonStr) w0).
Proof.
  assert (Hgen : forall w' d, file w' = Some d -> fromJson d = ParseError ->
                              loadFinished ok w' = w').
  { intros w' d Hf Hp. unfold loadFinished. rewrite Hf, Hp.
    destruct ok; simpl; [destruct (readable w')|]; reflexivity. }
  intros Hf Hp. split.
  - exact (Hgen w data Hf Hp).
  - intros now jsonStr w0 He Hp0 Hw.
    apply (Hgen _ (toUtf8 jsonStr)); [|exact Hp0].
    rewrite (capture_raw now jsonStr w0 He Hp0), (write_file_writable _ w0 Hw).
    reflexivity.
Qed.

(** C8 (restore normalization).  When the state file parses, the
    script handed to the page carries an object with exactly the keys
    [id], [paused], [time] (in the key order of a [QJsonObject]); each
    holds the stored field when it has the right type, and the default
    otherwise -- the empty string, 0 and [true] -- in particular when
    the field is missing. *)
Theorem restore_normalizes (w : World) (data : QByteArray) (doc : QJsonDocument) :
  file w = Some data ->
  readable w = true ->
  fromJson data = ParseOk doc ->
  exists state : QJsonObject,
    dispatched (loadFinished true w) = restore_script state :: dispatched w /\
    state = rebuilt_state (object doc) /\
    keys state = ["id"; "paused"; "time"] /\
    value "id" state = JString (toString (value "id" (object doc)) EmptyString) /\
    value "time" state = JDouble (toDouble (value "time" (object doc)) num_zero) /\
    value "paused" state = JBool (toBool (value "paused" (object doc)) true) /\
    (value "id" (object doc) = JUndefined -> value "id" state = JString EmptyString) /\
    (value "time" (object doc) = JUndefined -> value "time" state = JDouble num_zero) /\
    (value "paused" (object doc) = JUndefined -> value "paused" state = JBool true).
Proof.
  intros Hf Hr Hp.
  exists (rebuilt_state (object doc)).
  rewrite (restore_parsed w Hf Hr Hp), rebuilt_state_eq.
  repeat split; intros ->; reflexivity.
Qed.

(** C9 (a document that is not an object).  When the state file
    parses as a top-level array the restore handler does not give up:
    it hands the page the all-default descriptor, and a ready audio
    element (whose duration is not negative) is sought to position 0,
    without resuming playback. *)
Theorem restore_top_level_array
    (w : World) (data : QByteArray) (arr : list QJsonValue)
    (state : JsValue) (p : Page) (a : Audio) (ticks : list Audio) :
  file w = Some data ->
  readable w = true ->
  fromJson data = ParseOk (DocArray arr) ->
  js_eval (fromUtf8 (toJson (DocObject (normalized EmptyString num_zero true)))) = Some state ->
  Get state "time" = Normal (JsNumber num_zero) ->
  Get state "paused" = Normal (JsBool true) ->
  audio p = Some a ->
  ready a = true ->
  SFltb (duration a) num_zero = false ->
  dispatched (loadFinished true w) =
    restore_script (normalized EmptyString num_zero true) :: dispatched w /\
  effects (run_script (restore_script (normalized EmptyString num_zero true)) p ticks) =
    [SetCurrentTime num_zero].
Proof.
  intros Hf Hr Hp Heval Ht Hpz Ha Hready Hd. split.
  - rewrite (restore_parsed w Hf Hr Hp). reflexivity.
  - unfold run_script, restore_script. rewrite Heval.
    rewrite (restore_ready_now state p ticks Ha Hready Ht Hpz). simpl.
    unfold applied_effects. rewrite (applied_position_zero _ Hd). reflexivity.
Qed.

(** C10 (capture of a page without a player).  On a page with no audio
    element and no player accessors the read script still returns a
    descriptor, with position 0 and [paused] true; once the codec has
    parsed it the capture handler writes it, stamped, over whatever
    the state file held. *)
Theorem capture_without_player
    (now : QString) (p : Page) (w : World) (obj : QJsonObject) :
  audio p = None ->
  (forall pl, player p = Some pl -> getCurrentTime pl = None /\ isPlaying pl = None) ->
  isEmpty (JSON_stringify (descriptor (page_id p) num_zero true)) = false ->
  fromJson (toUtf8 (JSON_stringify (descriptor (page_id p) num_zero true))) =
    ParseOk (DocObject obj) ->
  value "time" obj = JDouble num_zero ->
  value "paused" obj = JBool true ->
  writable w = true ->
  js_read_state p = ([], Normal (JSON_stringify (descriptor (page_id p) num_zero true))) /\
  file (stateTimer_timeout now p w) = Some (toJson (stamped now obj)) /\
  value "time" (object (stamped now obj)) = JDouble num_zero /\
  value "paused" (object (stamped now obj)) = JBool true.
Proof.
  intros Ha Hpl He Hp Ht Hpz Hw.
  assert (Hread : js_read_state p =
                  ([], Normal (JSON_stringify (descriptor (page_id p) num_zero true)))).
  { unfold js_read_state. rewrite Ha.
    destruct (player p) as [pl|] eqn:Hplayer.
    - destruct (Hpl pl eq_refl) as [-> ->]. reflexivity.
    - reflexivity. }
  split; [exact Hread|].
  unfold stateTimer_timeout, runJavaScript_result. rewrite Hread. cbn [snd].
  rewrite (capture_parsed now _ w He Hp), (write_file_writable _ w Hw).
  simpl. rewrite !value_insert_other by discriminate.
  auto.
Qed.

End Claims.

(** * The properties on the sample inputs *)

Section Samples.

Import Sample.

Open Scope string_scope.


(** C1 on the sample: the song captured at second 37 while playing is
    restored on a page whose element becomes ready at the third poll. *)
Lemma capture_restore_roundtrip_witness :
  effects (run_script (P := Ref.platform) (restore_script (P := Ref.platform) song)
                      (page_with (Some loading)) (ready_after 2)) =
    [SetCurrentTime (num_of_Z 37); AudioPlay].
Proof.
  destruct (@capture_restore_roundtrip Ref.platform now1
              (Ref.stringify (state_at 37 false)) song
              "#/song?id=42" (num_of_Z 37) false fresh song_js
              (page_with (Some loading)) loading playing
              (ready_after 2) [loading; loading; loading] [])
    as (_ & _ & H & _); [by_evaluation .. | exact H].
Defined.

(** C2 as stated fails: with an element that is never ready the
    callback runs 21 times, not at most 20; after 20 polls the interval
    is still set; and an element that is first ready on the 21st poll
    is still restored. *)
Lemma polling_bound_20_counterexample :
  polls (js_restore_state (P := Ref.platform) (state_at 37 false)
           (page_with (Some loading)) (never_ready 30)) = 21 /\
  ~ polls (js_restore_state (P := Ref.platform) (state_at 37 false)
             (page_with (Some loading)) (never_ready 30)) <= 20 /\
  armed (js_restore_state (P := Ref.platform) (state_at 37 false)
           (page_with (Some loading)) (never_ready 20)) = true /\
  effects (js_restore_state (P := Ref.platform) (state_at 37 false)
             (page_with (Some loading)) (ready_after 20)) =
    [SetCurrentTime (num_of_Z 37); AudioPlay].
Proof.
  assert (Hpolls : polls (js_restore_state (P := Ref.platform) (state_at 37 false)
                            (page_with (Some loading)) (never_ready 30)) = 21)
    by (vm_compute; reflexivity).
  rewrite Hpolls.
  split; [reflexivity|].
  split; [lia|].
  split; vm_compute; reflexivity.
Qed.

(** C2, amended, on the sample: the element is first ready on the
    15th poll. *)
Lemma restore_polling_bound_witness :
  effects (js_restore_state (P := Ref.platform) (state_at 37 false)
             (page_with (Some loading)) (ready_after 14)) =
    [SetCurrentTime (num_of_Z 37); AudioPlay] /\
  polls (js_restore_state (P := Ref.platform) (state_at 37 false)
           (page_with (Some loading)) (ready_after 14)) = 15.
Proof.
  destruct (@restore_polling_bound Ref.platform (state_at 37 false)
              (page_with (Some loading)) loading (num_of_Z 37) (JsBool false)
              (ready_after 14))
    as (_ & _ & _ & _ & _ & H); [by_evaluation .. |].
  destruct (H (never_ready 14) playing [])
    as (He & Hp & _); [by_evaluation .. |].
  split; [exact He | exact Hp].
Defined.

(** C3 as stated fails: a persisted position of -5 under a duration
    of 200 is applied as -5, which is negative. *)
Lemma negative_position_counterexample :
  run_latest (loadFinished (P := Ref.platform) true (saved_at_position (-5)))
             (page_with (Some playing)) [] =
    [SetCurrentTime (num_of_Z (-5))] /\
  SFltb (num_of_Z (-5)) num_zero = true /\
  SFleb num_zero (num_of_Z (-5)) = false.
Proof. repeat split; vm_compute; reflexivity. Qed.

(** C3, amended, on the sample: 500 under a duration of 200. *)
Lemma restore_clamps_position_witness :
  effects (js_restore_state (P := Ref.platform) (state_at 500 false)
             (page_with (Some playing)) []) =
    [SetCurrentTime (num_of_Z 200); AudioPlay].
Proof.
  destruct (@restore_clamps_position Ref.platform (state_at 500 false)
              (page_with (Some playing)) playing (num_of_Z 500) (JsBool false) [])
    as (H & _); [by_evaluation .. | exact H].
Defined.

(** C4 on the sample: a result that is not JSON replaces the saved
    song. *)
Lemma capture_fallback_verbatim_witness :
  file (read_state_callback (P := Ref.platform) now2 (QVString not_json) saved_song) =
    Some (list_byte_of_string not_json).
Proof.
  destruct (@capture_fallback_verbatim Ref.platform now2 not_json saved_song)
    as (H & _); [by_evaluation .. | exact H].
Defined.

(** C5 on the sample: two ticks, four seconds apart, on the page
    playing second 37 of the song. *)
Lemma capture_idempotent_witness :
  exists (data1 data2 : QByteArray) (d1 d2 : QJsonObject),
    file (stateTimer_timeout (P := Ref.platform) now1 (page_with (Some playing)) fresh) =
      Some data1 /\
    file (stateTimer_timeout (P := Ref.platform) now2 (page_with (Some playing))
            (stateTimer_timeout (P := Ref.platform) now1 (page_with (Some playing)) fresh)) =
      Some data2 /\
    Ref.read_document data1 = ParseOk (DocObject d1) /\
    Ref.read_document data2 = ParseOk (DocObject d2) /\
    value "time" d1 = JDouble (num_of_Z 37) /\
    value "time" d2 = JDouble (num_of_Z 37) /\
    value "saved_at" d1 = JString now1 /\
    value "saved_at" d2 = JString now2.
Proof.
  destruct (@capture_idempotent Ref.platform now1 now2
              (Ref.stringify (state_at 37 false)) song
              "#/song?id=42" (num_of_Z 37) false (page_with (Some playing)) fresh)
    as (data1 & data2 & d1 & d2 & H1 & H2 & H3 & H4 & (_ & H5 & _) & (_ & H6 & _)
        & H7 & H8 & _);
    [by_evaluation .. |].
  exists data1, data2, d1, d2. repeat split; assumption.
Defined.

(** C6 on the sample: a load event on a fresh profile. *)
Lemma restore_precondition_noop_witness :
  loadFinished (P := Ref.platform) true fresh = fresh.
Proof.
  apply (@restore_precondition_noop Ref.platform true fresh).
  right. left. reflexivity.
Defined.

(** C7 on the sample: the world left by a fallback write. *)
Lemma restore_parse_failure_noop_witness :
  loadFinished (P := Ref.platform) true
    (read_state_callback (P := Ref.platform) now1 (QVString not_json) fresh) =
  read_state_callback (P := Ref.platform) now1 (QVString not_json) fresh.
Proof.
  destruct (@restore_parse_failure_noop Ref.platform true
              (read_state_callback (P := Ref.platform) now1 (QVString not_json) fresh)
              (list_byte_of_string not_json))
    as (H & _); [by_evaluation .. | exact H].
Defined.

(** C8 on the sample: a state file with an [id] only. *)
Lemma restore_normalizes_witness :
  dispatched (loadFinished (P := Ref.platform) true saved_id_only) =
    [restore_script (P := Ref.platform) (normalized "#/song?id=42" num_zero true)].
Proof.
  destruct (@restore_normalizes Ref.platform saved_id_only
              (toJson (Platform := Ref.platform) (DocObject [("id", JString "#/song?id=42")]))
              (DocObject [("id", JString "#/song?id=42")]))
    as (state & Hd & -> & _); [by_evaluation .. | exact Hd].
Defined.

(** C9 on the sample: a state file holding a top-level array. *)
Lemma restore_top_level_array_witness :
  run_latest (loadFinished (P := Ref.platform) true saved_array)
             (page_with (Some playing)) [] =
    [SetCurrentTime num_zero].
Proof.
  destruct (@restore_top_level_array Ref.platform saved_array
              (toJson (Platform := Ref.platform)
                      (DocArray [JDouble (num_of_Z 1); JDouble (num_of_Z 2)]))
              [JDouble (num_of_Z 1); JDouble (num_of_Z 2)]
              default_js (page_with (Some playing)) playing [])
    as (Hd & He); [by_evaluation .. |].
  unfold run_latest. rewrite Hd. exact He.
Defined.

(** C10 on the sample: a tick on a page without a player overwrites
    the saved song with position 0. *)
Lemma capture_without_player_witness :
  file (stateTimer_timeout (P := Ref.platform) now2 (page_with None) saved_song) =
    Some (toJson (Platform := Ref.platform)
                 (stamped now2 (normalized "#/song?id=42" num_zero true))).
Proof.
  destruct (@capture_without_player Ref.platform now2 (page_with None) saved_song
              (normalized "#/song?id=42" num_zero true))
    as (_ & H & _); [by_evaluation .. | exact H].
Defined.

End Samples.

(** * More on the two scripts *)

Section ScriptProperties.

Context {P : Platform}.

Open Scope string_scope.

Lemma page_id_not_empty (p : Page) : isEmpty (page_id p) = false.
Proof.
  unfold page_id, str_or.
  destruct (location_hash p); simpl; [|reflexivity].
  destruct (location_pathname p); simpl; [|reflexivity].
  destruct (document_title p); reflexivity.
Qed.

(** X1.  The read script never throws.  On every page it returns a
    string: the serialisation of a descriptor whose [id] is the page
    identifier (which is never empty), or -- only when there is no
    audio element and [Number()] throws on what [getCurrentTime]
    returned -- that of the default descriptor of the outer handler,
    with [id] unknown, [time] 0 and [paused] true. *)
Theorem read_state_always_answers (p : Page) :
  isEmpty (page_id p) = false /\
  ((exists (time : number) (pz : bool),
       js_read_state p = ([], Normal (JSON_stringify (descriptor (page_id p) time pz)))) \/
   (js_read_state p = ([], Normal (JSON_stringify (descriptor "unknown" num_zero true))) /\
    audio p = None /\
    exists pl v, player p = Some pl /\ getCurrentTime pl = Some (Normal v) /\
                 ToNumber v = Throw)).
Proof.
  split; [apply page_id_not_empty|].
  unfold js_read_state.
  destruct (audio p) as [a|] eqn:Ha.
  - left. unfold js_or. simpl.
    destruct (num_truthy (currentTime a)); simpl; do 2 eexists; reflexivity.
  - destruct (player p) as [pl|] eqn:Hpl.
    + destruct (getCurrentTime pl) as [[v|]|] eqn:Hg.
      * destruct (ToNumber v) as [n|] eqn:Hn.
        -- left. destruct (isPlaying pl) as [[r|]|]; simpl; rewrite Hn; simpl;
             do 2 eexists; reflexivity.
        -- right. split.
           ++ destruct (isPlaying pl) as [[r|]|]; simpl; rewrite Hn; reflexivity.
           ++ split; [reflexivity|]. exists pl, v. auto.
      * left. destruct (isPlaying pl) as [[r|]|]; simpl; do 2 eexists; reflexivity.
      * left. destruct (isPlaying pl) as [[r|]|]; simpl; do 2 eexists; reflexivity.
    + left. simpl. do 2 eexists. reflexivity.
Qed.

(** X2.  When the page has an audio element the descriptor is read
    from it alone -- [window.player] is not consulted -- and the time
    reported is never NaN: a current time of NaN or 0 is reported as
    0. *)
Theorem read_state_prefers_audio (p : Page) (a : Audio) :
  audio p = Some a ->
  js_read_state p =
    ([], Normal (JSON_stringify
                   (descriptor (page_id p) (num_or (currentTime a) num_zero) (paused a)))) /\
  is_nan (num_or (currentTime a) num_zero) = false.
Proof.
  intros Ha. unfold js_read_state. rewrite Ha. split.
  - unfold js_or, num_or. simpl.
    destruct (num_truthy (currentTime a)); reflexivity.
  - unfold num_or. destruct (currentTime a); reflexivity.
Qed.

(** X3.  Without an audio element each player accessor is called on
    its own: one that is missing or throws leaves its default ([time]
    0, [paused] true) and does not disturb the other; [isPlaying]
    gives the negation of the truthiness of what it returned, and
    [getCurrentTime] gives [Number(v)].  That conversion is outside
    the inner [try]: when it throws (a plain object with a [toString]
    property of its own) the outer handler returns the default
    descriptor, with [id] unknown, and the answer of [isPlaying] is
    lost with it. *)
Theorem read_state_player_accessors (p : Page) (pl : Player) :
  audio p = None ->
  player p = Some pl ->
  js_read_state p =
    ([], Normal (JSON_stringify
                   match ToNumber (match getCurrentTime pl with
                                   | Some (Normal v) => v
                                   | _ => JsNumber num_zero
                                   end) with
                   | Normal time =>
                       descriptor (page_id p) time
                         (match isPlaying pl with
                          | Some (Normal r) => negb (ToBoolean r)
                          | _ => true
                          end)
                   | Throw => descriptor "unknown" num_zero true
                   end)).
Proof.
  intros Ha Hpl. unfold js_read_state. rewrite Ha, Hpl.
  destruct (getCurrentTime pl) as [[v|]|], (isPlaying pl) as [[r|]|]; simpl;
    try reflexivity; destruct (ToNumber v); reflexivity.
Qed.

(** [setOnce] either does nothing and fails, or sets the position
    (and maybe resumes) and succeeds. *)
Lemma setOnce_cases (state : JsValue) (a : Audio) :
  setOnce state a = ([], Normal false) \/
  exists v, setOnce state a = ([SetCurrentTime v], Normal true) \/
            setOnce state a = ([SetCurrentTime v; AudioPlay], Normal true).
Proof.
  unfold setOnce. destruct (0 <? readyState a)%nat; [|left; reflexivity].
  unfold lift. destruct (Get state "time") as [t|] eqn:Ht; simpl; [|left; reflexivity].
  destruct (ToNumber t) as [x|]; simpl; [|left; reflexivity].
  destruct (ToNumber (js_or (JsNumber (duration a)) t)) as [y|]; simpl;
    [|left; reflexivity].
  assert (Hpz : exists pz, Get state "paused" = Normal pz)
    by (destruct state; simpl in *; try discriminate Ht; eauto).
  destruct Hpz as [pz ->]. simpl.
  right. exists (Math_min x y). destruct (ToBoolean pz); simpl; auto.
Qed.

Lemma interval_cases (state : JsValue) (ticks : list Audio) :
  forall tries,
    effects (interval state tries ticks) = [] \/
    exists v, effects (interval state tries ticks) = [SetCurrentTime v] \/
              effects (interval state tries ticks) = [SetCurrentTime v; AudioPlay].
Proof.
  induction ticks as [|a rest IH]; intros tries; simpl.
  - left. reflexivity.
  - destruct (setOnce_cases state a) as [E | [v [E | E]]]; rewrite E; simpl.
    + destruct (20 <? S tries)%nat; simpl; [left; reflexivity | apply IH].
    + right. exists v. left. reflexivity.
    + right. exists v. right. reflexivity.
Qed.

Lemma restore_body_else (state : JsValue) (p : Page) :
  (audio p = None \/
   ToBoolean state = false \/
   exists t, Get state "time" = Normal t /\ typeof_number t = false) ->
  restore_body state p =
    (match player p with
     | Some pl =>
         match seek pl with
         | Some seek_call => player_fallback state pl seek_call
         | None => []
         end
     | None => []
     end, Normal false).
Proof.
  intros Hcond. unfold restore_body.
  assert (Hc : match audio p with
               | Some _ =>
                   if ToBoolean state
                   then bind (lift (Get state "time")) (fun t => ret (typeof_number t))
                   else ret false
               | None => ret false
               end = ([], Normal false)).
  { destruct (audio p) as [a|]; [|reflexivity].
    destruct Hcond as [H | [H | [t [Ht Hn]]]].
    - discriminate H.
    - rewrite H. reflexivity.
    - destruct (ToBoolean state); [|reflexivity].
      unfold lift. rewrite Ht. simpl. rewrite Hn. reflexivity. }
  rewrite Hc. simpl.
  replace (match audio p with
           | Some _ => _
           | None => _
           end) with
    (match player p with
     | Some pl =>
         match seek pl with
         | Some seek_call =>
             bind (try_catch
                     (bind (lift (Get state "time")) (fun t =>
                      bind (lift (seek_call t)) (fun _ =>
                      bind (emit (PlayerSeek t)) (fun _ =>
                      bind (lift (Get state "paused")) (fun pz =>
                      if negb (ToBoolean pz)
                      then bind (lift (play pl)) (fun _ => emit PlayerPlay)
                      else ret tt)))))
                     (ret tt))
                  (fun _ => ret false)
         | None => ret false
         end
     | None => ret false
     end)
    by (destruct (audio p); reflexivity).
  destruct (player p) as [pl|]; [|reflexivity].
  destruct (seek pl) as [seek_call|]; [|reflexivity].
  unfold player_fallback, lift.
  destruct (Get state "time") as [t|] eqn:Ht; simpl; [|reflexivity].
  destruct (seek_call t) as [u|]; simpl; [|reflexivity].
  assert (Hpz : exists pz, Get state "paused" = Normal pz)
    by (destruct state; simpl in *; try discriminate Ht; eauto).
  destruct Hpz as [pz Hpz]. rewrite Hpz. simpl.
  destruct (ToBoolean pz); simpl; [reflexivity|].
  destruct (play pl); reflexivity.
Qed.

(** X4.  The fallback on [window.player] is taken when there is no
    audio element, or when [state.time] is not a number.  It runs
    once: [seek] is called with [state.time] as it is (no clamping),
    [play] is called after it when [state.paused] is falsy, a throwing
    [seek] skips [play], and no interval is ever set. *)
Theorem restore_player_fallback
    (state : JsValue) (p : Page) (pl : Player) (seek_call : JsValue -> Completion unit)
    (t pz : JsValue) (ticks : list Audio) :
  audio p = None \/ typeof_number t = false ->
  player p = Some pl ->
  seek pl = Some seek_call ->
  Get state "time" = Normal t ->
  Get state "paused" = Normal pz ->
  effects (js_restore_state state p ticks) =
    match seek_call t with
    | Normal _ =>
        PlayerSeek t ::
          (if ToBoolean pz then []
           else match play pl with Normal _ => [PlayerPlay] | Throw => [] end)
    | Throw => []
    end /\
  polls (js_restore_state state p ticks) = 0 /\
  armed (js_restore_state state p ticks) = false /\
  raised (js_restore_state state p ticks) = false.
Proof.
  intros Hcond Hpl Hseek Ht Hpz. unfold js_restore_state.
  rewrite restore_body_else.
  - rewrite Hpl, Hseek. unfold player_fallback. rewrite Ht, Hpz. simpl.
    destruct (seek_call t); auto.
  - destruct Hcond as [H | H]; [left; exact H|].
    right. right. exists t. split; assumption.
Qed.

(** X5.  Without an audio element the restore never polls and never
    touches an audio element; when there is no [window.player], or it
    has no [seek], the script does nothing at all, whatever the
    state. *)
Theorem restore_without_audio (state : JsValue) (p : Page) (ticks : list Audio) :
  audio p = None ->
  polls (js_restore_state state p ticks) = 0 /\
  armed (js_restore_state state p ticks) = false /\
  raised (js_restore_state state p ticks) = false /\
  (forall v, ~ In (SetCurrentTime v) (effects (js_restore_state state p ticks))) /\
  ~ In AudioPlay (effects (js_restore_state state p ticks)) /\
  ((player p = None \/ exists pl, player p = Some pl /\ seek pl = None) ->
   effects (js_restore_state state p ticks) = []).
Proof.
  intros Ha. unfold js_restore_state.
  rewrite restore_body_else by (left; exact Ha). simpl.
  repeat split.
  - intros v Hin. destruct (player p) as [pl|]; [|exact Hin].
    destruct (seek pl) as [f|]; [|exact Hin]. unfold player_fallback in Hin.
    destruct (Get state "time") as [t|]; [|exact Hin].
    destruct (f t); [|exact Hin].
    destruct Hin as [Hin | Hin]; [discriminate Hin|].
    destruct (Get state "paused") as [pz|]; [|exact Hin].
    destruct (ToBoolean pz); [exact Hin|].
    destruct (play pl); [|exact Hin].
    destruct Hin as [Hin | []]. discriminate Hin.
  - intros Hin. destruct (player p) as [pl|]; [|exact Hin].
    destruct (seek pl) as [f|]; [|exact Hin]. unfold player_fallback in Hin.
    destruct (Get state "time") as [t|]; [|exact Hin].
    destruct (f t); [|exact Hin].
    destruct Hin as [Hin | Hin]; [discriminate Hin|].
    destruct (Get state "paused") as [pz|]; [|exact Hin].
    destruct (ToBoolean pz); [exact Hin|].
    destruct (play pl); [|exact Hin].
    destruct Hin as [Hin | []]. discriminate Hin.
  - intros [Hnone | [pl [Hpl Hseek]]].
    + rewrite Hnone. reflexivity.
    + rewrite Hpl, Hseek. reflexivity.
Qed.

Lemma player_fallback_one (state : JsValue) (pl : Player)
      (f : JsValue -> Completion unit) :
  one_restore (player_fallback state pl f).
Proof.
  unfold player_fallback.
  destruct (Get state "time") as [t|]; [|constructor].
  destruct (f t); [|constructor].
  destruct (Get state "paused") as [pz|]; [|constructor].
  destruct (ToBoolean pz); [constructor|].
  destruct (play pl); constructor.
Qed.

(** X6.  One restore changes the page at most once, on every page,
    for every state and however the element behaves over the polls:
    the script does nothing, or sets the position once (and may then
    resume), or seeks the player once (and may then resume).  The
    position is never set a second time by a later poll. *)
Theorem restore_acts_at_most_once (state : JsValue) (p : Page) (ticks : list Audio) :
  one_restore (effects (js_restore_state state p ticks)).
Proof.
  destruct (audio p) as [a|] eqn:Ha.
  - destruct (ToBoolean state) eqn:Hs.
    + destruct (Get state "time") as [t|] eqn:Ht.
      * destruct (typeof_number t) eqn:Hn.
        -- destruct t as [| | |n| |]; try discriminate Hn.
           unfold js_restore_state.
           rewrite (restore_body_audio state p Ha Ht).
           destruct (setOnce_cases state a) as [E | [v [E | E]]]; rewrite E; simpl.
           ++ destruct (interval_cases state ticks 0) as [Ei | [w [Ei | Ei]]];
                destruct (interval state 0 ticks); simpl in *; rewrite Ei; constructor.
           ++ constructor.
           ++ constructor.
        -- unfold js_restore_state.
           rewrite restore_body_else by (right; right; exists t; auto).
           simpl. destruct (player p) as [pl|]; [|constructor].
           destruct (seek pl) as [f|]; [|constructor].
           apply player_fallback_one.
      * destruct state; simpl in Hs, Ht; discriminate.
    + unfold js_restore_state.
      rewrite restore_body_else by (right; left; exact Hs).
      simpl. destruct (player p) as [pl|]; [|constructor].
      destruct (seek pl) as [f|]; [|constructor].
      apply player_fallback_one.
  - unfold js_restore_state.
    rewrite restore_body_else by (left; exact Ha).
    simpl. destruct (player p) as [pl|]; [|constructor].
    destruct (seek pl) as [f|]; [|constructor].
    apply player_fallback_one.
Qed.

(** X7.  Running a dispatched restore script is silent: an error is
    raised only when the spliced text is not an expression at all;
    once the text evaluates, no exception escapes the script or any
    of its interval callbacks, whatever the value, the page and the
    polls. *)
Theorem restore_script_silent (stateJson : QString) (p : Page) (ticks : list Audio) :
  raised (run_script (RestoreScript stateJson) p ticks) = true <->
  js_eval stateJson = None.
Proof.
  unfold run_script. destruct (js_eval stateJson) as [state|].
  - rewrite js_restore_state_not_raised. split; discriminate.
  - simpl. split; reflexivity.
Qed.

End ScriptProperties.

(** * More on the two handlers *)

Section HandlerProperties.

Context {P : Platform}.

Open Scope string_scope.

Lemma capture_frame (now : QString) (result : QVariant) (w : World) :
  dispatched (read_state_callback now result w) = dispatched w /\
  readable (read_state_callback now result w) = readable w /\
  writable (read_state_callback now result w) = writable w.
Proof.
  unfold read_state_callback, write_file.
  destruct result as [|s]; [auto|].
  destruct (isEmpty s); [auto|].
  destruct (fromJson (toUtf8 s)); destruct (writable w) eqn:Hw; simpl; auto.
Qed.

Lemma restore_frame (ok : bool) (w : World) :
  file (loadFinished ok w) = file w /\
  readable (loadFinished ok w) = readable w /\
  writable (loadFinished ok w) = writable w /\
  (loadFinished ok w = w \/
   exists s, loadFinished ok w = runJavaScript s w).
Proof.
  assert (Hcases : loadFinished ok w = w \/
                   exists s, loadFinished ok w = runJavaScript s w).
  { unfold loadFinished.
    destruct ok; simpl; [|auto].
    destruct (file w) as [data|]; [|auto].
    destruct (readable w); simpl; [|auto].
    destruct (fromJson data); [|auto].
    right. eexists. reflexivity. }
  destruct Hcases as [H | [s H]]; rewrite H.
  - auto.
  - simpl. repeat split; try reflexivity. right. exists s. reflexivity.
Qed.

(** X9.  A capture replaces the whole file: for a non-empty result
    the bytes written depend on the result and the time only, not on
    what the file held or on the scripts dispatched before. *)
Theorem capture_replaces_whole_file (now jsonStr : QString) :
  isEmpty jsonStr = false ->
  exists data : QByteArray,
    forall w, writable w = true ->
              file (read_state_callback now (QVString jsonStr) w) = Some data.
Proof.
  intros He.
  destruct (fromJson (toUtf8 jsonStr)) as [doc|] eqn:Hp.
  - exists (toJson (stamped now (object doc))). intros w Hw.
    rewrite (capture_parsed now jsonStr w He Hp), (write_file_writable _ w Hw).
    reflexivity.
  - exists (toUtf8 jsonStr). intros w Hw.
    rewrite (capture_raw now jsonStr w He Hp), (write_file_writable _ w Hw).
    reflexivity.
Qed.

(** X10.  A capture is dropped without a trace when the engine
    delivers no result, when the result is the empty string, or when
    the state file cannot be opened for writing: nothing is written
    and nothing else changes. *)
Theorem capture_dropped (now : QString) (result : QVariant) (w : World) :
  result = QVInvalid \/ result = QVString EmptyString \/ writable w = false ->
  read_state_callback now result w = w.
Proof.
  intros [-> | [-> | Hw]]; try reflexivity.
  unfold read_state_callback, write_file.
  destruct result as [|s]; [reflexivity|].
  destruct (isEmpty s); [reflexivity|].
  destruct (fromJson (toUtf8 s)); rewrite Hw; reflexivity.
Qed.

(** X11.  What a parsed capture writes: an object whose [saved_at] is
    the capture time -- replacing any [saved_at] the result carried --
    and whose other keys are those of the result, unchanged.  A result
    that parses to something other than an object (an array) loses
    its content: only [saved_at] is written. *)
Theorem capture_stamps_saved_at
    (now jsonStr : QString) (doc : QJsonDocument) (w : World) :
  isEmpty jsonStr = false ->
  fromJson (toUtf8 jsonStr) = ParseOk doc ->
  writable w = true ->
  exists written : QJsonObject,
    file (read_state_callback now (QVString jsonStr) w) =
      Some (toJson (DocObject written)) /\
    value "saved_at" written = JString now /\
    (forall k, k <> "saved_at" -> value k written = value k (object doc)) /\
    (forall arr, doc = DocArray arr -> written = [("saved_at", JString now)]) /\
    (doc = DocNull -> written = [("saved_at", JString now)]).
Proof.
  intros He Hp Hw.
  exists (insert "saved_at" (JString now) (object doc)).
  rewrite (capture_parsed now jsonStr w He Hp), (write_file_writable _ w Hw).
  split; [reflexivity|].
  split; [apply value_insert_same|].
  split; [intros k Hk; apply value_insert_other; exact Hk|].
  split; [intros arr ->; reflexivity | intros ->; reflexivity].
Qed.

Lemma not_dispatched_more (s : Script) (w : World) : w <> runJavaScript s w.
Proof.
  intros H. apply (f_equal (fun x => List.length (dispatched x))) in H.
  simpl in H. lia.
Qed.

Lemma loadFinished_after_dispatch (s s0 : Script) (w : World) :
  loadFinished true w = runJavaScript s w ->
  loadFinished true (runJavaScript s0 w) = runJavaScript s (runJavaScript s0 w).
Proof.
  unfold loadFinished. simpl.
  destruct (file w) as [data|];
    [|intros H; destruct (not_dispatched_more H)].
  destruct (readable w); simpl;
    [|intros H; destruct (not_dispatched_more H)].
  destruct (fromJson data) as [doc|];
    [|intros H; destruct (not_dispatched_more H)].
  intros H. unfold runJavaScript in H |- *. simpl.
  injection H as <-. reflexivity.
Qed.

(** X12.  Every load event starts afresh from the file: two
    successive load events either both do nothing or hand the page
    the same script twice, and the file is as it was. *)
Theorem load_events_repeat (w : World) :
  (loadFinished true w = w /\ loadFinished true (loadFinished true w) = w) \/
  exists s,
    loadFinished true w = runJavaScript s w /\
    loadFinished true (loadFinished true w) = runJavaScript s (runJavaScript s w).
Proof.
  destruct (restore_frame true w) as (_ & _ & _ & [Hn | [s Hs]]).
  - left. rewrite !Hn. auto.
  - right. exists s. split; [exact Hs|].
    rewrite Hs. apply loadFinished_after_dispatch. exact Hs.
Qed.

Lemma sync_all_app (evs1 evs2 : list SyncEvent) (w : World) :
  sync_all (evs1 ++ evs2) w = sync_all evs2 (sync_all evs1 w).
Proof. unfold sync_all. apply fold_left_app. Qed.

Lemma capture_file_depends (now : QString) (result : QVariant) (w w' : World) :
  file w = file w' -> writable w = writable w' ->
  file (read_state_callback now result w) = file (read_state_callback now result w').
Proof.
  intros Hf Hw. unfold read_state_callback, write_file.
  destruct result as [|s]; [exact Hf|].
  destruct (isEmpty s); [exact Hf|].
  destruct (fromJson (toUtf8 s)); rewrite <- Hw; destruct (writable w); simpl; auto.
Qed.

(** X13.  Over a whole session, in any interleaving of captures and
    load events, the load events do not disturb the storage: the file
    at the end is the one the captures alone would have left.  The
    scripts handed to the page are at most one per successful load
    event. *)
Theorem loads_do_not_disturb_storage (events : list SyncEvent) (w : World) :
  file (sync_all events w) = file (sync_all (filter is_capture events) w) /\
  List.length (dispatched (sync_all events w)) <=
    List.length (dispatched w) + List.length (filter is_successful_load events).
Proof.
  assert (Hgen : forall evs w1 w2,
             file w1 = file w2 -> writable w1 = writable w2 ->
             file (sync_all evs w1) = file (sync_all (filter is_capture evs) w2) /\
             writable (sync_all evs w1) = writable (sync_all (filter is_capture evs) w2)).
  { induction evs as [|e evs IH]; intros w1 w2 Hf Hw; simpl.
    - auto.
    - destruct e as [now result | ok]; simpl.
      + apply IH.
        * apply capture_file_depends; assumption.
        * destruct (capture_frame now result w1) as (_ & _ & ->).
          destruct (capture_frame now result w2) as (_ & _ & ->). exact Hw.
      + apply IH.
        * destruct (restore_frame ok w1) as (-> & _). exact Hf.
        * destruct (restore_frame ok w1) as (_ & _ & -> & _). exact Hw. }
  split.
  - apply Hgen; reflexivity.
  - revert w. induction events as [|e evs IH]; intros w.
    + simpl. lia.
    + change (sync_all (e :: evs) w) with (sync_all evs (sync e w)).
      specialize (IH (sync e w)).
      assert (Hstep : List.length (dispatched (sync e w)) <=
                      List.length (dispatched w) +
                      (if is_successful_load e then 1 else 0)).
      { destruct e as [now result | [|]]; simpl.
        - destruct (capture_frame now result w) as (-> & _). lia.
        - destruct (restore_frame true w) as (_ & _ & _ & [-> | [s ->]]); simpl; lia.
        - unfold loadFinished. simpl. lia. }
      simpl filter. destruct (is_successful_load e); simpl; lia.
Qed.

End HandlerProperties.

(** * The media commands *)

Section MediaProperties.

Open Scope string_scope.

Lemma startsWith_not_empty (name : QString) :
  startsWith name mpris_prefix = true -> isEmpty name = false.
Proof. destruct name; simpl; [discriminate | reflexivity]. Qed.

Lemma first_mpris_name_spec (names : list QString) :
  (first_mpris_name names = EmptyString /\
   Forall (fun n => startsWith n mpris_prefix = false) names) \/
  (exists before after,
      names = (before ++ first_mpris_name names :: after)%list /\
      startsWith (first_mpris_name names) mpris_prefix = true /\
      Forall (fun n => startsWith n mpris_prefix = false) before).
Proof.
  induction names as [|n rest IH]; simpl.
  - left. split; [reflexivity | constructor].
  - destruct (startsWith n mpris_prefix) eqn:E.
    + right. exists [], rest. repeat split; [exact E | constructor].
    + destruct IH as [[H0 Hall] | (before & after & Hsplit & Hpre & Hall)].
      * left. split; [exact H0 | constructor; assumption].
      * right. exists (n :: before), after. repeat split.
        -- simpl. rewrite <- Hsplit. reflexivity.
        -- exact Hpre.
        -- constructor; assumption.
Qed.

(** X14.  The service found is the first name on the bus that starts
    with [org.mpris.MediaPlayer2.]: when the result is not empty the
    bus interface is valid, the result is one of the names listed, it
    has the prefix, and no name listed before it has. *)
Theorem first_mpris_service_is_first (bus : SessionBus) :
  isEmpty (findFirstMprisService bus) = false ->
  dbus_valid bus = true /\
  exists names before after,
    ListNames bus = Some names /\
    names = (before ++ findFirstMprisService bus :: after)%list /\
    startsWith (findFirstMprisService bus) mpris_prefix = true /\
    Forall (fun n => startsWith n mpris_prefix = false) before.
Proof.
  unfold findFirstMprisService.
  destruct (dbus_valid bus); simpl; [|discriminate].
  destruct (ListNames bus) as [names|]; [|discriminate].
  intros Hne. split; [reflexivity|].
  destruct (first_mpris_name_spec names) as [[H0 _] | (before & after & H)].
  - rewrite H0 in Hne. discriminate Hne.
  - exists names, before, after. split; [reflexivity | exact H].
Qed.

(** X15.  No service is found exactly when the bus interface is not
    valid, or the reply to [ListNames] is not valid, or no listed name
    has the prefix. *)
Theorem first_mpris_service_none (bus : SessionBus) :
  findFirstMprisService bus = EmptyString <->
  (dbus_valid bus = false \/
   ListNames bus = None \/
   exists names, ListNames bus = Some names /\
                 Forall (fun n => startsWith n mpris_prefix = false) names).
Proof.
  unfold findFirstMprisService. split.
  - destruct (dbus_valid bus); simpl; [|auto].
    destruct (ListNames bus) as [names|]; [|auto].
    intros H0. right. right. exists names. split; [reflexivity|].
    destruct (first_mpris_name_spec names) as [[_ Hall] | (before & after & _ & Hpre & _)].
    + exact Hall.
    + rewrite H0 in Hpre. discriminate Hpre.
  - intros [Hv | [Hl | (names & Hl & Hall)]].
    + rewrite Hv. reflexivity.
    + rewrite Hl. destruct (dbus_valid bus); reflexivity.
    + rewrite Hl. destruct (dbus_valid bus); simpl; [|reflexivity].
      destruct (first_mpris_name_spec names) as [[H0 _] | (before & after & Hs & Hpre & _)].
      * exact H0.
      * rewrite Hs in Hall. apply Forall_app in Hall. destruct Hall as [_ Hall].
        inversion Hall as [|? ? Hx _]. rewrite Hx in Hpre. discriminate Hpre.
Qed.

(** X16.  An MPRIS command makes at most one call: to the first MPRIS
    service, with the command as given.  It makes none when no service
    is found or the player interface is not valid, and it succeeds
    exactly when a service is found, its interface is valid and the
    reply to the call is valid. *)
Theorem mpris_command_calls_first_service (bus : SessionBus) (command : QString) :
  (fst (sendMprisCommand bus command) = true <->
   isEmpty (findFirstMprisService bus) = false /\
   player_valid bus (findFirstMprisService bus) = true /\
   call_valid bus (findFirstMprisService bus) command = true) /\
  (snd (sendMprisCommand bus command) = [] \/
   snd (sendMprisCommand bus command) =
     [PlayerCall (findFirstMprisService bus) command]) /\
  (isEmpty (findFirstMprisService bus) = true \/
   player_valid bus (findFirstMprisService bus) = false ->
   sendMprisCommand bus command = (false, [])).
Proof.
  unfold sendMprisCommand.
  destruct (isEmpty (findFirstMprisService bus)); simpl.
  - split; [split; [discriminate | intros (H & _); discriminate H]|].
    split; [left; reflexivity | reflexivity].
  - destruct (player_valid bus (findFirstMprisService bus)); simpl.
    + split; [split; [auto | intros (_ & _ & H); exact H]|].
      split; [right; reflexivity | intros [H | H]; discriminate H].
    + split; [split; [discriminate | intros (_ & H & _); discriminate H]|].
      split; [left; reflexivity | reflexivity].
Qed.

(** X17.  The X11 fallback leaves the display as it found it: a
    display that was opened is closed again on every path, also when
    the symbol has no key code.  It reports success exactly when the
    display opens and the key code is not 0; a key is pressed only
    then, and every press is followed by the release of the same
    key. *)
Theorem x11_media_key_balanced (x : XServer) (keysym : KeySym) :
  (fst (sendX11MediaKey x keysym) = true <->
   display_opens x = true /\ XKeysymToKeycode x keysym <> 0%N) /\
  (snd (sendX11MediaKey x keysym) = [] \/
   exists keys,
     snd (sendX11MediaKey x keysym) = (XOpenDisplay :: keys ++ [XCloseDisplay])%list /\
     ~ In XOpenDisplay keys /\ ~ In XCloseDisplay keys) /\
  (fst (sendX11MediaKey x keysym) = false ->
   forall k b, ~ In (XTestFakeKeyEvent k b) (snd (sendX11MediaKey x keysym))) /\
  (fst (sendX11MediaKey x keysym) = true ->
   snd (sendX11MediaKey x keysym) =
     [XOpenDisplay;
      XTestFakeKeyEvent (XKeysymToKeycode x keysym) true;
      XTestFakeKeyEvent (XKeysymToKeycode x keysym) false;
      XFlush; XCloseDisplay]).
Proof.
  unfold sendX11MediaKey.
  destruct (display_opens x); simpl.
  - destruct (N.eqb_spec (XKeysymToKeycode x keysym) 0) as [E | E]; simpl.
    + repeat split; try discriminate.
      * intros (_ & H). contradiction.
      * right. exists []. simpl. repeat split; intros [].
      * intros _ k b [H | [H | []]]; discriminate H.
    + repeat split; auto.
      * right. exists [XTestFakeKeyEvent (XKeysymToKeycode x keysym) true;
                       XTestFakeKeyEvent (XKeysymToKeycode x keysym) false; XFlush].
        simpl. repeat split; intros [H | [H | [H | []]]]; discriminate H.
      * discriminate.
  - repeat split; try discriminate; auto.
    intros (H & _). discriminate H.
Qed.

Lemma via_mpris (unix : bool) (bus : SessionBus) (x : XServer) (command : QString) :
  fst (sendMprisCommand bus command) = true ->
  sendSystemMediaCommand unix bus x command =
    {| sent_ok := true; bus_calls := snd (sendMprisCommand bus command);
       x_requests := [] |}.
Proof.
  unfold sendSystemMediaCommand.
  destruct (sendMprisCommand bus command) as [ok calls]. simpl.
  intros ->. reflexivity.
Qed.

Lemma via_x11 (bus : SessionBus) (x : XServer) (command : QString) (keysym : KeySym) :
  fst (sendMprisCommand bus command) = false ->
  (command = "PlayPause" /\ keysym = XF86XK_AudioPlay \/
   command = "Next" /\ keysym = XF86XK_AudioNext \/
   command = "Previous" /\ keysym = XF86XK_AudioPrev) ->
  sendSystemMediaCommand true bus x command =
    {| sent_ok := fst (sendX11MediaKey x keysym);
       bus_calls := snd (sendMprisCommand bus command);
       x_requests := snd (sendX11MediaKey x keysym) |}.
Proof.
  unfold sendSystemMediaCommand.
  destruct (sendMprisCommand bus command) as [ok calls]. simpl.
  intros -> [[-> ->] | [[-> ->] | [-> ->]]]; simpl;
    destruct (sendX11MediaKey x _); reflexivity.
Qed.

Lemma not_via_x11 (unix : bool) (bus : SessionBus) (x : XServer) (command : QString) :
  fst (sendMprisCommand bus command) = false ->
  unix = false \/
  (command <> "PlayPause" /\ command <> "Next" /\ command <> "Previous") ->
  sendSystemMediaCommand unix bus x command =
    {| sent_ok := false; bus_calls := snd (sendMprisCommand bus command);
       x_requests := [] |}.
Proof.
  unfold sendSystemMediaCommand.
  destruct (sendMprisCommand bus command) as [ok calls]. simpl.
  intros -> [-> | (H1 & H2 & H3)]; [reflexivity|].
  destruct unix; simpl; [|reflexivity].
  apply String.eqb_neq in H1, H2, H3. rewrite H1, H2, H3. reflexivity.
Qed.

(** X18.  The X11 keys are a fallback only.  When the MPRIS call
    succeeds the X server is not contacted.  The X server is contacted
    only when MPRIS failed, on a Unix build, and for one of the three
    commands [PlayPause], [Next], [Previous] (compared exactly); any
    other command can succeed through MPRIS only. *)
Theorem media_command_prefers_mpris
    (unix : bool) (bus : SessionBus) (x : XServer) (command : QString) :
  bus_calls (sendSystemMediaCommand unix bus x command) =
    snd (sendMprisCommand bus command) /\
  (fst (sendMprisCommand bus command) = true ->
   sent_ok (sendSystemMediaCommand unix bus x command) = true /\
   x_requests (sendSystemMediaCommand unix bus x command) = []) /\
  (x_requests (sendSystemMediaCommand unix bus x command) <> [] ->
   fst (sendMprisCommand bus command) = false /\ unix = true /\
   (command = "PlayPause" \/ command = "Next" \/ command = "Previous")) /\
  (command <> "PlayPause" -> command <> "Next" -> command <> "Previous" ->
   sent_ok (sendSystemMediaCommand unix bus x command) =
     fst (sendMprisCommand bus command)).
Proof.
  destruct (fst (sendMprisCommand bus command)) eqn:Hm.
  - rewrite (via_mpris unix bus x command Hm). simpl.
    split; [reflexivity|]. split; [auto|].
    split; [intros H; exfalso; apply H; reflexivity | reflexivity].
  - destruct unix.
    + destruct (String.eqb_spec command "PlayPause") as [E1 | E1];
        [|destruct (String.eqb_spec command "Next") as [E2 | E2];
          [|destruct (String.eqb_spec command "Previous") as [E3 | E3]]].
      * rewrite (via_x11 bus x (keysym := XF86XK_AudioPlay) Hm) by auto. simpl.
        split; [reflexivity|]. split; [discriminate|].
        split; [auto | intros H; contradiction].
      * rewrite (via_x11 bus x (keysym := XF86XK_AudioNext) Hm) by auto. simpl.
        split; [reflexivity|]. split; [discriminate|].
        split; [auto | intros _ H; contradiction].
      * rewrite (via_x11 bus x (keysym := XF86XK_AudioPrev) Hm) by auto. simpl.
        split; [reflexivity|]. split; [discriminate|].
        split; [auto | intros _ _ H; contradiction].
      * rewrite (@not_via_x11 true bus x command Hm) by auto. simpl.
        split; [reflexivity|]. split; [discriminate|].
        split; [intros H; exfalso; apply H; reflexivity | reflexivity].
    + rewrite (@not_via_x11 false bus x command Hm) by auto. simpl.
      split; [reflexivity|]. split; [discriminate|].
      split; [intros H; exfalso; apply H; reflexivity | reflexivity].
Qed.

(** X19.  On a Unix build a media entry of the tray menu writes its
    warning exactly when both ways fail: the MPRIS call does not
    succeed, and the display does not open or the entry's key symbol
    ([AudioPlay] for play/pause, [AudioPrev] for previous, [AudioNext]
    for next) has no key code. *)
Theorem tray_media_action_warns (bus : SessionBus) (x : XServer) (a : MediaAction) :
  snd (media_action_triggered true bus x a) = true <->
  fst (sendMprisCommand bus (action_command a)) = false /\
  (display_opens x = false \/ XKeysymToKeycode x (action_keysym a) = 0%N).
Proof.
  unfold media_action_triggered. simpl.
  destruct (fst (sendMprisCommand bus (action_command a))) eqn:Hm.
  - rewrite (via_mpris true bus x _ Hm). simpl.
    split; [discriminate | intros (H & _); discriminate H].
  - rewrite (via_x11 bus x (keysym := action_keysym a) Hm)
      by (destruct a; simpl; auto).
    simpl. unfold sendX11MediaKey.
    destruct (display_opens x); simpl.
    + destruct (N.eqb_spec (XKeysymToKeycode x (action_keysym a)) 0) as [E | E]; simpl.
      * split; auto.
      * split; [discriminate|]. intros (_ & [H | H]); [discriminate H | contradiction].
    + split; auto.
Qed.

End MediaProperties.

(** * The window and the tray *)

Section DesktopProperties.

Open Scope string_scope.

Lemma in_step_startup (s : QSettings) : in_step (startup s).
Proof. unfold in_step. destruct s as [[|]|]; reflexivity. Qed.

Lemma in_step_handle (e : UiEvent) (app : App) : in_step app -> in_step (handle e app).
Proof.
  unfold in_step. intros H.
  destruct e as [ | reason | | [|] | [|] | | ]; simpl; try exact H; try reflexivity.
  - unfold closeEvent.
    destruct (m_closeToTray (window app)) eqn:Hm; simpl; rewrite Hm;
      [exact H | reflexivity].
  - unfold tray_activated.
    destruct reason; try exact H;
      destruct (negb (isVisible (window app)) || isMinimized (window app)); exact H.
Qed.

Lemma handle_all_app (evs1 evs2 : list UiEvent) (app : App) :
  handle_all (evs1 ++ evs2) app = handle_all evs2 (handle_all evs1 app).
Proof. unfold handle_all. apply fold_left_app. Qed.

Lemma handle_all_invariant (I : App -> Prop) :
  (forall e app, I app -> I (handle e app)) ->
  forall events app, I app -> I (handle_all events app).
Proof.
  intros Hstep events. induction events as [|e evs IH]; intros app Hi.
  - exact Hi.
  - apply IH, Hstep, Hi.
Qed.

(** X20.  The close behaviour survives a restart: after any sequence
    of events in a session started from any stored settings, a window
    built from the settings as they are then stored has the close
    behaviour the running window has. *)
Theorem restart_keeps_close_behaviour (s : QSettings) (events : list UiEvent) :
  m_closeToTray (window (startup (settings (handle_all events (startup s))))) =
    m_closeToTray (window (handle_all events (startup s))).
Proof.
  change (in_step (handle_all events (startup s))).
  apply (@handle_all_invariant in_step in_step_handle events (startup s)).
  apply in_step_startup.
Qed.

(** X21.  While the window closes to the tray, closing it never ends
    the program: over any sequence of events without the quit entry
    and without switching to exit-on-close, [QApplication::quit] is
    not called and the behaviour stays; if the sequence has no
    [aboutToQuit] either, the timer and the tray icon are as they
    were. *)
Theorem tray_mode_never_quits (events : list UiEvent) (app : App) :
  m_closeToTray (window app) = true ->
  quit_called app = false ->
  forallb stays_in_tray events = true ->
  quit_called (handle_all events app) = false /\
  m_closeToTray (window (handle_all events app)) = true /\
  (forallb keeps_timer events = true ->
   timer_active (handle_all events app) = timer_active app /\
   tray_visible (handle_all events app) = tray_visible app).
Proof.
  revert app. induction events as [|e evs IH]; intros app Hm Hq Hsafe.
  - simpl. auto.
  - simpl in Hsafe. apply andb_true_iff in Hsafe. destruct Hsafe as [He Hsafe].
    change (handle_all (e :: evs) app) with (handle_all evs (handle e app)).
    assert (Hstep : m_closeToTray (window (handle e app)) = true /\
                    quit_called (handle e app) = false /\
                    (keeps_timer e = true ->
                     timer_active (handle e app) = timer_active app /\
                     tray_visible (handle e app) = tray_visible app)).
    { destruct e as [ | reason | | [|] | [|] | | ]; simpl in He;
        try discriminate He; simpl.
      all: try (unfold closeEvent; rewrite Hm; simpl).
      all: try (unfold tray_activated; destruct reason; simpl;
                try destruct (negb (isVisible (window app)) || isMinimized (window app));
                simpl).
      all: repeat split; auto; discriminate. }
    destruct Hstep as (Hm' & Hq' & Ht').
    destruct (IH (handle e app) Hm' Hq' Hsafe) as (H1 & H2 & H3).
    split; [exact H1|]. split; [exact H2|].
    intros Hk. simpl in Hk. apply andb_true_iff in Hk. destruct Hk as [Hke Hk].
    destruct (Ht' Hke) as [E1 E2]. destruct (H3 Hk) as [F1 F2].
    rewrite F1, F2, E1, E2. auto.
Qed.

(** X22.  A click on the tray icon (single or double) brings back a
    window that is hidden or minimized -- shown and not minimized --
    and hides a window that is shown and not minimized; any other
    activation changes nothing.  In particular a window closed to the
    tray is back after one click. *)
Theorem tray_click_toggles_window (reason : ActivationReason) (app : App) :
  (is_click reason = false -> tray_activated reason app = app) /\
  (is_click reason = true ->
   (isVisible (window app) = false \/ isMinimized (window app) = true ->
    isVisible (window (tray_activated reason app)) = true /\
    isMinimized (window (tray_activated reason app)) = false) /\
   (isVisible (window app) = true -> isMinimized (window app) = false ->
    isVisible (window (tray_activated reason app)) = false) /\
   (m_closeToTray (window app) = true ->
    isVisible (window (handle (TrayActivated reason) (handle CloseEvent app))) = true /\
    isMinimized (window (handle (TrayActivated reason) (handle CloseEvent app))) = false /\
    quit_called (handle (TrayActivated reason) (handle CloseEvent app)) = quit_called app)).
Proof.
  split.
  - destruct reason; simpl; intros H; try discriminate H; reflexivity.
  - intros Hc. split; [|split].
    + intros Hhidden. unfold tray_activated.
      assert (Hor : negb (isVisible (window app)) || isMinimized (window app) = true).
      { destruct Hhidden as [-> | ->]; [reflexivity | apply orb_true_r]. }
      destruct reason; try discriminate Hc; rewrite Hor; simpl; auto.
    + intros Hv Hn. unfold tray_activated.
      destruct reason; try discriminate Hc; rewrite Hv, Hn; reflexivity.
    + intros Hm. simpl. unfold closeEvent. rewrite Hm. simpl.
      destruct reason; try discriminate Hc; simpl; auto.
Qed.

Lemma wound_down_handle (e : UiEvent) (app : App) :
  wound_down app -> wound_down (handle e app).
Proof.
  unfold wound_down. intros (Hs & Ht & Hv).
  destruct e as [ | reason | | [|] | [|] | | ]; simpl.
  all: try (unfold closeEvent; destruct (m_closeToTray (window app)) eqn:Hm; simpl).
  all: try (unfold tray_activated; destruct reason; simpl;
            try destruct (negb (isVisible (window app)) || isMinimized (window app));
            simpl).
  all: rewrite ?Hv, ?Hm; auto.
Qed.

(** X23.  Shutting down is final: once [aboutToQuit] has been
    handled, whatever events came before and whatever events still
    arrive, the state timer stays stopped, the tray icon stays hidden
    and the settings hold the window's close behaviour. *)
Theorem about_to_quit_is_final (before after : list UiEvent) (app : App) :
  timer_active (handle_all (before ++ AboutToQuit :: after) app) = false /\
  tray_visible (handle_all (before ++ AboutToQuit :: after) app) = false /\
  settings (handle_all (before ++ AboutToQuit :: after) app) =
    Some (m_closeToTray (window (handle_all (before ++ AboutToQuit :: after) app))).
Proof.
  rewrite handle_all_app.
  change (handle_all (AboutToQuit :: after) (handle_all before app))
    with (handle_all after (aboutToQuit (handle_all before app))).
  assert (H0 : wound_down (aboutToQuit (handle_all before app))).
  { unfold wound_down, aboutToQuit. simpl.
    destruct (tray_visible (handle_all before app)) eqn:E; auto. }
  destruct (@handle_all_invariant wound_down wound_down_handle after _ H0)
    as (Hs & Ht & Hv).
  auto.
Qed.

End DesktopProperties.

(** * The further properties on the sample inputs *)

Section MoreSamples.

Import Sample Desk.

Open Scope string_scope.

(** X2 on the sample: the page with the playing element. *)
Lemma read_state_prefers_audio_witness :
  js_read_state (P := Ref.platform) (page_with (Some playing)) =
    ([], Normal (Ref.stringify (descriptor "#/song?id=42" (num_of_Z 37) false))).
Proof.
  destruct (@read_state_prefers_audio Ref.platform (page_with (Some playing)) playing)
    as (H & _); [by_evaluation .. | exact H].
Defined.

(** X3 on the sample: the time accessor returns an object that does
    not convert; the answer of [isPlaying] is lost. *)
Lemma read_state_player_accessors_witness :
  js_read_state (P := Ref.platform) (page_with_player odd_player) =
    ([], Normal (Ref.stringify (descriptor "unknown" num_zero true))).
Proof.
  exact (@read_state_player_accessors Ref.platform
           (page_with_player odd_player) odd_player eq_refl eq_refl).
Defined.

(** X4 on the sample: the song restored through the player. *)
Lemma restore_player_fallback_witness :
  effects (js_restore_state (P := Ref.platform) (state_at 37 false)
             (page_with_player throwing_player) []) =
    [PlayerSeek (JsNumber (num_of_Z 37)); PlayerPlay].
Proof.
  destruct (@restore_player_fallback Ref.platform (state_at 37 false)
              (page_with_player throwing_player) throwing_player
              (fun _ => Normal tt) (JsNumber (num_of_Z 37)) (JsBool false) [])
    as (H & _); [by_evaluation .. | exact H].
Defined.

(** X5 on the sample: a page with neither element nor player. *)
Lemma restore_without_audio_witness :
  effects (js_restore_state (P := Ref.platform) (state_at 37 false)
             (page_with None) (ready_after 3)) = [].
Proof.
  destruct (@restore_without_audio Ref.platform (state_at 37 false)
              (page_with None) (ready_after 3))
    as (_ & _ & _ & _ & _ & H); [by_evaluation .. |].
  apply H. left. reflexivity.
Defined.

(** X9 on the sample: a result that is not JSON. *)
Lemma capture_replaces_whole_file_witness :
  exists data : QByteArray,
    forall w, writable w = true ->
              file (read_state_callback (P := Ref.platform) now1 (QVString not_json) w) =
                Some data.
Proof.
  apply (@capture_replaces_whole_file Ref.platform now1 not_json).
  reflexivity.
Defined.

(** X10 on the sample: an empty result over the saved song. *)
Lemma capture_dropped_witness :
  read_state_callback (P := Ref.platform) now2 (QVString EmptyString) saved_song =
    saved_song.
Proof.
  apply (@capture_dropped Ref.platform now2 (QVString EmptyString) saved_song).
  right. left. reflexivity.
Defined.

(** X11 on the sample: the song captured at the second tick. *)
Lemma capture_stamps_saved_at_witness :
  exists written : QJsonObject,
    file (read_state_callback (P := Ref.platform) now2
            (QVString (Ref.stringify (state_at 37 false))) saved_song) =
      Some (toJson (Platform := Ref.platform) (DocObject written)) /\
    value "saved_at" written = JString now2.
Proof.
  destruct (@capture_stamps_saved_at Ref.platform now2
              (Ref.stringify (state_at 37 false)) (DocObject song) saved_song)
    as (written & H1 & H2 & _); [by_evaluation .. |].
  exists written. split; [exact H1 | exact H2].
Defined.

(** X14 on the sample: the bus with two players. *)
Lemma first_mpris_service_is_first_witness :
  startsWith (findFirstMprisService bus) mpris_prefix = true.
Proof.
  destruct (first_mpris_service_is_first bus)
    as (_ & names & before & after & _ & _ & H & _); [by_evaluation .. | exact H].
Defined.

(** X21 on the sample: an evening of closing and reopening. *)
Lemma tray_mode_never_quits_witness :
  quit_called (handle_all evening (startup None)) = false.
Proof.
  destruct (tray_mode_never_quits evening (startup None))
    as (H & _); [by_evaluation .. | exact H].
Defined.

End MoreSamples.
